(** * sonar/findings.py: the finding reconciliation engine

    A shallow embedding of the [Finding] class of [sonar/findings.py]: the
    loading of a raw record ([_load_common]), the derived file path
    ([file]), the history predicates ([has_changelog], [modifiers],
    [can_be_synced]), the two matchers ([strictly_identical_to],
    [almost_identical_to]) and the driver ([search_siblings]).

    Python values are modelled as follows.
    - An attribute documented as [str] holds a string or [None]:
      [option string].
    - [line] holds [None], an [int] or, when the coercion of line 125 was
      skipped, the raw [str]: [PyVal].
    - A dict read with fixed keys ([_json], [textRange], the waivers of
      [**kwargs]) is a record of optional fields; the dict of change events
      is a [gmap]; a [set] is a [gset].
    - An exception is a value of [Exn]; a method that may raise returns a
      [Res]; a method that may call [changelog()] returns a [Py], which
      also records these calls.
    Calls to [sonar.logging] are left out, since they change no value the
    code reads; the evaluation of an argument of such a call is kept where
    it calls a modelled method ([modifiers()] in [can_be_synced]).
    What the class inherits or leaves to its subclasses ([uuid],
    [changelog()]) and Python's built-in [int] are parameters. *)

From Stdlib Require Import ZArith Ascii String List Bool Lia.
From stdpp Require Import base decidable option list gmap strings.

Local Open Scope string_scope.
Local Open Scope list_scope.
Local Open Scope Z_scope.

(** ** Python values and exceptions *)

(** The values the [line] attribute and the [line] / [lineNumber] keys of a
    raw record take: [None] (JSON [null]), an [int], a [str]. *)
Inductive PyVal : Type :=
| PNone
| PInt (n : Z)
| PStr (s : string).

#[global] Instance PyVal_eq_dec : EqDecision PyVal.
Proof. solve_decision. Defined.

(** A [str] or [None]. *)
Abbreviation pystr := (option string).

(** Python's [==] on the values above. *)
Definition py_eq {A : Type} `{EqDecision A} (x y : A) : bool := bool_decide (x = y).

Inductive Exn : Type :=
| TypeError
| KeyError
| ValueError.

#[global] Instance Exn_eq_dec : EqDecision Exn.
Proof. solve_decision. Defined.

(** The outcome of a call: a returned value or a raised exception. *)
Inductive Res (A : Type) : Type :=
| Ok (a : A)
| Raise (e : Exn).
Arguments Ok {A} a.
Arguments Raise {A} e.

Definition res_bind {A B : Type} (m : Res A) (k : A -> Res B) : Res B :=
  match m with
  | Ok a => k a
  | Raise e => Raise e
  end.

(** ** Strings *)

Module PyStr.

(** [s.startswith(p)]. *)
Fixpoint startswith (p s : string) : bool :=
  match p, s with
  | EmptyString, _ => true
  | String _ _, EmptyString => false
  | String a p', String b s' => if Ascii.eqb a b then startswith p' s' else false
  end.

(** [needle in hay] on two [str]: [needle] occurs in [hay]. *)
Fixpoint contains (needle hay : string) : bool :=
  startswith needle hay ||
  match hay with
  | EmptyString => false
  | String _ hay' => contains needle hay'
  end.

Definition newline : ascii := "010"%char.

(** Group 1 of [re.search(pattern, s)], [None] when there is no match,
    for a pattern made of a group that holds the anchor [^] and a greedy
    repetition of [.], followed by the literal [marker].  The anchor pins
    the match at index 0 (no [re.MULTILINE]); [.] matches any character
    but a line feed (no [re.DOTALL]); the repetition is greedy, so the
    longest prefix that is followed by [marker] is kept. *)
Fixpoint search_before (marker s : string) : option string :=
  match s with
  | EmptyString => if startswith marker s then Some EmptyString else None
  | String c s' =>
      match (if Ascii.eqb c newline then None else search_before marker s') with
      | Some p => Some (String c p)
      | None => if startswith marker s then Some EmptyString else None
      end
  end.

(** [s.split(":")]. *)
Fixpoint split_colon (s : string) : list string :=
  match s with
  | EmptyString => [EmptyString]
  | String c s' =>
      if Ascii.eqb c ":"%char then EmptyString :: split_colon s'
      else match split_colon s' with
           | h :: t => String c h :: t
           | [] => [String c EmptyString]
           end
  end.

(** [s.split(":")[-1]]. *)
Definition last_segment (s : string) : string :=
  List.last (split_colon s) EmptyString.

End PyStr.

(** The ASCII fragment of Python's built-in [int] on a [str], [None] for
    [ValueError]: surrounding white space (the space and the characters 9
    to 13; in an ASCII string the separators 28 to 31 are not stripped), an
    optional sign, decimal digits with single underscores between them, at
    most [max_str_digits] of them (the default of
    [sys.set_int_max_str_digits]). *)
Module PyInt.

Definition is_space (c : ascii) : bool :=
  let n := nat_of_ascii c in
  ((9 <=? n)%nat && (n <=? 13)%nat) || (n =? 32)%nat.

Definition max_str_digits : nat := 4300.

Fixpoint digit_count (s : string) : nat :=
  match s with
  | EmptyString => O
  | String c s' =>
      let n := nat_of_ascii c in
      ((if (48 <=? n)%nat && (n <=? 57)%nat then 1 else 0) + digit_count s')%nat
  end.

Definition digit_val (c : ascii) : option Z :=
  let n := Z.of_nat (nat_of_ascii c) in
  if (48 <=? n) && (n <=? 57) then Some (n - 48) else None.

Fixpoint lstrip (s : string) : string :=
  match s with
  | String c s' => if is_space c then lstrip s' else s
  | EmptyString => s
  end.

Fixpoint rstrip (s : string) : string :=
  match s with
  | EmptyString => EmptyString
  | String c s' =>
      match rstrip s' with
      | EmptyString => if is_space c then EmptyString else String c EmptyString
      | r => String c r
      end
  end.

Fixpoint digits (acc : Z) (after_digit : bool) (s : string) : option Z :=
  match s with
  | EmptyString => if after_digit then Some acc else None
  | String c s' =>
      match digit_val c with
      | Some d => digits (10 * acc + d) true s'
      | None =>
          if Ascii.eqb c "_"%char && after_digit then digits acc false s' else None
      end
  end.

Definition of_str (s : string) : option Z :=
  if (max_str_digits <? digit_count s)%nat then None
  else
    match rstrip (lstrip s) with
    | String "+"%char r => digits 0 false r
    | String "-"%char r => Z.opp <$> digits 0 false r
    | t => digits 0 false t
    end.

End PyInt.
(** ** Data model *)

(** The [textRange] dict of a raw record; only [startOffset] is read. *)
Record TextRange : Type := mkTextRange {
  startOffset : option Z
}.

(** A raw record ([jsondata], [_json]): one optional field per key the
    class reads; [None] is an absent key. *)
Record RawRecord : Type := mkRawRecord {
  j_author : pystr;
  j_type : pystr;
  j_severity : pystr;
  j_message : pystr;
  j_status : pystr;
  j_resolution : pystr;
  j_rule : pystr;
  j_ruleReference : pystr;
  j_line : option PyVal;
  j_lineNumber : option PyVal;
  j_component : pystr;
  j_path : pystr;
  j_textRange : option TextRange
}.

(** [old.update(new)]: the keys of [new] win. *)
Definition dict_update (old new : RawRecord) : RawRecord :=
  let pick {A : Type} (f : RawRecord -> option A) : option A :=
    match f new with
    | Some v => Some v
    | None => f old
    end in
  {| j_author := pick j_author; j_type := pick j_type; j_severity := pick j_severity;
     j_message := pick j_message; j_status := pick j_status;
     j_resolution := pick j_resolution; j_rule := pick j_rule;
     j_ruleReference := pick j_ruleReference; j_line := pick j_line;
     j_lineNumber := pick j_lineNumber; j_component := pick j_component;
     j_path := pick j_path; j_textRange := pick j_textRange |}.

(** The attributes of a [Finding] object the modelled methods read or
    write.  [J] is the type of [_json]: [option RawRecord] while the object
    is being built ([None] until [_load_common] runs), [RawRecord] once it
    is loaded. *)
Record FindingOf (J : Type) : Type := mkFinding {
  key : string;
  endpoint : string;
  _json : J;
  severity : pystr;
  type : pystr;
  author : pystr;
  status : pystr;
  resolution : pystr;
  rule : pystr;
  line : PyVal;
  component : pystr;
  message : pystr;
  modification_date : Z;
  hash : pystr
}.
Arguments mkFinding {J}.
Arguments key {J} _.
Arguments endpoint {J} _.
Arguments _json {J} _.
Arguments severity {J} _.
Arguments type {J} _.
Arguments author {J} _.
Arguments status {J} _.
Arguments resolution {J} _.
Arguments rule {J} _.
Arguments line {J} _.
Arguments component {J} _.
Arguments message {J} _.
Arguments modification_date {J} _.
Arguments hash {J} _.

(** A finding built from a raw record: what a population holds. *)
Abbreviation Finding := (FindingOf RawRecord).

#[global] Instance TextRange_eq_dec : EqDecision TextRange.
Proof. solve_decision. Defined.
#[global] Instance RawRecord_eq_dec : EqDecision RawRecord.
Proof. solve_decision. Defined.
#[global] Instance FindingOf_eq_dec (J : Type) `{EqDecision J} : EqDecision (FindingOf J).
Proof. solve_decision. Defined.

(** ** Loading a raw record *)

Section Loading.

(** Python's built-in [int] applied to a [str]; [None] stands for
    [ValueError].  [PyInt.of_str] is its ASCII fragment. *)
Variable int_of_str : string -> option Z.

(** [jsondata.get("line", jsondata.get("lineNumber", None))]. *)
Definition raw_line (jsondata : RawRecord) : PyVal :=
  match j_line jsondata with
  | Some v => v
  | None => default PNone (j_lineNumber jsondata)
  end.

(** Lines 121 to 127: the normalisation of [self.line]. *)
Definition normalize_line (v : PyVal) : PyVal :=
  let v := if py_eq v (PStr "null") then PNone else v in
  match v with
  | PNone => PNone
  | PInt n => PInt n
  | PStr s =>
      match int_of_str s with
      | Some n => PInt n
      | None => PStr s
      end
  end.

(** [Finding._load_common].  [jsondata["status"]] raises [KeyError] when
    the key is absent; the attributes assigned before that line are lost
    with the object. *)
Definition _load_common (self : FindingOf (option RawRecord)) (jsondata : RawRecord)
  : Res Finding :=
  let json :=
    match _json self with
    | None => jsondata
    | Some old => dict_update old jsondata
    end in
  match j_status jsondata with
  | None => Raise KeyError
  | Some st =>
      Ok {| key := key self;
            endpoint := endpoint self;
            _json := json;
            severity := j_severity jsondata;
            type := j_type jsondata;
            author := j_author jsondata;
            status := Some st;
            resolution := j_resolution jsondata;
            rule := match j_rule jsondata with
                    | Some r => Some r
                    | None => j_ruleReference jsondata
                    end;
            line := normalize_line (raw_line jsondata);
            component := component self;
            message := j_message jsondata;
            modification_date := modification_date self;
            hash := hash self |}
  end.

End Loading.

(** [Finding.__init__] before [_load]: every attribute is [None].  The
    dates are set by [_load_from_search] / [_load_from_export], which this
    development does not cover; [modification_date] stands for the value
    they store. *)
Definition init (key endpoint : string) (modification_date : Z) : FindingOf (option RawRecord) :=
  {| key := key; endpoint := endpoint; _json := None; severity := None; type := None;
     author := None; status := None; resolution := None; rule := None; line := PNone;
     component := None; message := None; modification_date := modification_date;
     hash := None |}.

(** ** The derived file path *)

(** [Finding.file]. *)
Definition file (self : Finding) : option string :=
  match j_component (_json self) with
  | Some comp =>
      let comp := default comp (PyStr.search_before ":BRANCH:" comp) in
      let comp := default comp (PyStr.search_before ":PULL_REQUEST:" comp) in
      Some (PyStr.last_segment comp)
  | None =>
      match j_path (_json self) with
      | Some p => Some p
      | None => None
      end
  end.

(** ** History *)

Module Changelog.
(** Modelled from the spec: the class of the values of the dict that
    [changelog()] returns is not under src; the spec gives each change
    event an author and a timestamp. *)
Record t : Type := mk {
  author : string;
  date : Z
}.
End Changelog.

(** A call of [changelog()], the method that fetches the history of a
    finding. *)
Inductive Event : Type :=
| ChangelogCall (f : Finding).

(** A computation that may raise and that records its [changelog()]
    calls, oldest first. *)
Definition Py (A : Type) : Type := (Res A * list Event)%type.

Definition py_ret {A : Type} (a : A) : Py A := (Ok a, []).

Definition py_lift {A : Type} (r : Res A) : Py A := (r, []).

Definition py_bind {A B : Type} (m : Py A) (k : A -> Py B) : Py B :=
  match m with
  | (Ok a, t) => let '(r, t') := k a in (r, t ++ t')
  | (Raise e, t) => (Raise e, t)
  end.

Notation "'let*' x ':=' m 'in' k" := (py_bind m (fun x => k))
  (at level 10, x name, m at level 100, k at level 200).

(** What a call returned or raised, and which [changelog()] calls it made. *)
Definition outcome {A : Type} (m : Py A) : Res A := fst m.
Definition calls {A : Type} (m : Py A) : list Event := snd m.

(** [**kwargs] of [almost_identical_to] and [search_siblings]: the
    waivers; [None] is an absent keyword. *)
Record Kwargs : Type := mkKwargs {
  ignore_message : option bool;
  ignore_line : option bool;
  ignore_author : option bool;
  ignore_type : option bool;
  ignore_severity : option bool
}.

#[global] Instance Kwargs_eq_dec : EqDecision Kwargs.
Proof. solve_decision. Defined.

(** No keyword given. *)
Definition no_kwargs : Kwargs := mkKwargs None None None None None.

(** [kwargs.get(k, False)]. *)
Definition kwargs_get (v : option bool) : bool := default false v.

(** A call [m(..., **kwargs)] of a method whose signature has no [**]
    parameter: Python raises [TypeError] (unexpected keyword argument)
    unless [kwargs] is empty. *)
Definition call_without_kwargs {A : Type} (kwargs : Kwargs) (body : Res A) : Res A :=
  if decide (kwargs = no_kwargs) then body else Raise TypeError.

Section FindingMethods.

(** [SqObject.uuid], inherited from [sonar.sqobject], which is not under
    src: the identifier of an object. *)
Variable uuid : Finding -> string.

(** Modelled from the spec: [changelog()] is implemented in the
    subclasses, which are not under src.  The call returns the change
    events of the finding, a dict; [changelog_of] is that dict. *)
Variable changelog_of : Finding -> gmap string Changelog.t.

Definition changelog (self : Finding) : Py (gmap string Changelog.t) :=
  (Ok (changelog_of self), [ChangelogCall self]).

(** [Finding.has_changelog]. *)
Definition has_changelog (self : Finding) (added_after : option Z) : Py bool :=
  if match added_after with
     | Some a => a >? modification_date self
     | None => false
     end
  then py_ret false
  else
    let* cl := changelog self in
    py_ret (0 <? Z.of_nat (size cl)).

(** [Finding.modifiers]. *)
Definition modifiers (self : Finding) : Py (gset string) :=
  let* cl := changelog self in
  py_ret (list_to_set (Changelog.author <$> (map_to_list cl).*2)).

(** The loop of lines 323 to 326 over the elements of the set. *)
Fixpoint all_in_user_list (us : list string) (user_list : list string) : bool :=
  match us with
  | [] => true
  | u :: us' =>
      if negb (bool_decide (u ∈ user_list)) then false
      else all_in_user_list us' user_list
  end.

(** [Finding.can_be_synced].  The first [modifiers()] call is the
    argument of [log.debug]. *)
Definition can_be_synced (self : Finding) (user_list : option (list string)) : Py bool :=
  let* _ := modifiers self in
  match user_list with
  | None =>
      let* b := has_changelog self None in
      py_ret (negb b)
  | Some l =>
      let* ms := modifiers self in
      py_ret (all_in_user_list (elements ms) l)
  end.

(** ** The matchers *)

(** [self._json["textRange"]["startOffset"]]; [None] is [KeyError]. *)
Definition start_offset (self : Finding) : option Z :=
  match j_textRange (_json self) with
  | Some rg => startOffset rg
  | None => None
  end.

(** Lines 334 to 341.  The right operand of [in] is a parenthesised
    [str], not a tuple: the test is a substring test, and it raises
    [TypeError] when [self.rule] is [None]. *)
Definition prelim_check (self another_finding : Finding) : Res bool :=
  match rule self with
  | None => Raise TypeError
  | Some r =>
      if PyStr.contains r "python:S6540" then
        match start_offset self, start_offset another_finding with
        | Some col1, Some col2 => Ok (py_eq col1 col2)
        | _, _ => Ok true
        end
      else Ok true
  end.

(** [Finding.strictly_identical_to]. *)
Definition strictly_identical_to (self another_finding : Finding) (ignore_component : bool)
  : Res bool :=
  if py_eq (key self) (key another_finding) then Ok true
  else
    res_bind (prelim_check self another_finding) (fun prelim =>
      Ok (py_eq (rule self) (rule another_finding)
          && py_eq (hash self) (hash another_finding)
          && py_eq (message self) (message another_finding)
          && py_eq (file self) (file another_finding)
          && (py_eq (component self) (component another_finding) || ignore_component)
          && prelim)).

(** The local [score] of [almost_identical_to] at line 373. *)
Definition score (self another_finding : Finding) (ignore_component : bool)
  (kwargs : Kwargs) : Z :=
  let s := 0 in
  let s := if py_eq (message self) (message another_finding)
              || kwargs_get (ignore_message kwargs) then s + 2 else s in
  let s := if py_eq (file self) (file another_finding) then s + 2 else s in
  let s := if py_eq (line self) (line another_finding)
              || kwargs_get (ignore_line kwargs) then s + 1 else s in
  let s := if py_eq (component self) (component another_finding)
              || ignore_component then s + 1 else s in
  let s := if py_eq (author self) (author another_finding)
              || kwargs_get (ignore_author kwargs) then s + 1 else s in
  let s := if py_eq (type self) (type another_finding)
              || kwargs_get (ignore_type kwargs) then s + 1 else s in
  let s := if py_eq (severity self) (severity another_finding)
              || kwargs_get (ignore_severity kwargs) then s + 1 else s in
  s.

(** [Finding.almost_identical_to]. *)
Definition almost_identical_to (self another_finding : Finding) (ignore_component : bool)
  (kwargs : Kwargs) : bool :=
  if negb (py_eq (rule self) (rule another_finding))
     || negb (py_eq (hash self) (hash another_finding))
  then false
  else 7 <=? score self another_finding ignore_component kwargs.

(** ** The driver *)

(** The call of line 388: the waivers are passed on to
    [strictly_identical_to]. *)
Definition strict_call (finding self : Finding) (ignore_component : bool) (kwargs : Kwargs)
  : Res bool :=
  call_without_kwargs kwargs (strictly_identical_to finding self ignore_component).

(** [(exact_matches, approx_matches, match_but_modified)]. *)
Definition Siblings : Type := (list Finding * list Finding * list Finding)%type.

(** The loop of lines 385 to 395; [Some] is the [return] of line 395,
    [None] the end of the loop. *)
Fixpoint exact_pass (self : Finding) (allowed_users : option (list string))
  (ignore_component : bool) (kwargs : Kwargs) (findings_list : list Finding)
  (acc : Siblings) : Py (option Siblings) :=
  match findings_list with
  | [] => py_ret None
  | finding :: rest =>
      if py_eq (uuid self) (uuid finding) then
        exact_pass self allowed_users ignore_component kwargs rest acc
      else
        let* identical := py_lift (strict_call finding self ignore_component kwargs) in
        if identical : bool then
          let* sync := can_be_synced finding allowed_users in
          let '(exact_matches, approx_matches, match_but_modified) := acc in
          py_ret (Some (if sync : bool
                        then (exact_matches ++ [finding], approx_matches, match_but_modified)
                        else (exact_matches, approx_matches, match_but_modified ++ [finding])))
        else exact_pass self allowed_users ignore_component kwargs rest acc
  end.

(** The loop of lines 398 to 407. *)
Fixpoint approx_pass (self : Finding) (allowed_users : option (list string))
  (ignore_component : bool) (kwargs : Kwargs) (findings_list : list Finding)
  (acc : Siblings) : Py Siblings :=
  match findings_list with
  | [] => py_ret acc
  | finding :: rest =>
      if almost_identical_to finding self ignore_component kwargs then
        let* sync := can_be_synced finding allowed_users in
        let '(exact_matches, approx_matches, match_but_modified) := acc in
        approx_pass self allowed_users ignore_component kwargs rest
          (if sync : bool
           then (exact_matches, approx_matches ++ [finding], match_but_modified)
           else (exact_matches, approx_matches, match_but_modified ++ [finding]))
      else approx_pass self allowed_users ignore_component kwargs rest acc
  end.

(** [Finding.search_siblings]. *)
Definition search_siblings (self : Finding) (findings_list : list Finding)
  (allowed_users : option (list string)) (ignore_component : bool) (kwargs : Kwargs)
  : Py Siblings :=
  let* found :=
    exact_pass self allowed_users ignore_component kwargs findings_list ([], [], []) in
  match found with
  | Some result => py_ret result
  | None => approx_pass self allowed_users ignore_component kwargs findings_list ([], [], [])
  end.

End FindingMethods.

(** * Specification-side definitions and sample data *)

(** The weighting of the specification: [w] points when the dimension is
    equal or waived. *)
Definition points (w : Z) (equal waived : bool) : Z :=
  if equal || waived then w else 0.

(** The score table of the specification: message 2, file path 2 (no
    waiver), line 1, component 1, author 1, type 1, severity 1. *)
Definition score_table (self another_finding : Finding) (ignore_component : bool)
  (kwargs : Kwargs) : Z :=
  points 2 (py_eq (message self) (message another_finding)) (kwargs_get (ignore_message kwargs))
  + points 2 (py_eq (file self) (file another_finding)) false
  + points 1 (py_eq (line self) (line another_finding)) (kwargs_get (ignore_line kwargs))
  + points 1 (py_eq (component self) (component another_finding)) ignore_component
  + points 1 (py_eq (author self) (author another_finding)) (kwargs_get (ignore_author kwargs))
  + points 1 (py_eq (type self) (type another_finding)) (kwargs_get (ignore_type kwargs))
  + points 1 (py_eq (severity self) (severity another_finding))
      (kwargs_get (ignore_severity kwargs)).

(** The waivable dimensions. *)
Inductive Waiver : Type :=
| W_message
| W_line
| W_component
| W_author
| W_type
| W_severity.

(** Whether a dimension is waived by the options of a call. *)
Definition waived (w : Waiver) (ignore_component : bool) (kwargs : Kwargs) : bool :=
  match w with
  | W_message => kwargs_get (ignore_message kwargs)
  | W_line => kwargs_get (ignore_line kwargs)
  | W_component => ignore_component
  | W_author => kwargs_get (ignore_author kwargs)
  | W_type => kwargs_get (ignore_type kwargs)
  | W_severity => kwargs_get (ignore_severity kwargs)
  end.

(** The options of a call with one more waiver set to [True]. *)
Definition set_waiver (w : Waiver) (opts : bool * Kwargs) : bool * Kwargs :=
  let '(ignore_component, kw) := opts in
  match w with
  | W_message =>
      (ignore_component,
       mkKwargs (Some true) (ignore_line kw) (ignore_author kw) (ignore_type kw)
         (ignore_severity kw))
  | W_line =>
      (ignore_component,
       mkKwargs (ignore_message kw) (Some true) (ignore_author kw) (ignore_type kw)
         (ignore_severity kw))
  | W_component => (true, kw)
  | W_author =>
      (ignore_component,
       mkKwargs (ignore_message kw) (ignore_line kw) (Some true) (ignore_type kw)
         (ignore_severity kw))
  | W_type =>
      (ignore_component,
       mkKwargs (ignore_message kw) (ignore_line kw) (ignore_author kw) (Some true)
         (ignore_severity kw))
  | W_severity =>
      (ignore_component,
       mkKwargs (ignore_message kw) (ignore_line kw) (ignore_author kw) (ignore_type kw)
         (Some true))
  end.

(** The options [opts'] waive every dimension that [opts] waives. *)
Definition waivers_le (opts opts' : bool * Kwargs) : Prop :=
  forall w, waived w (fst opts) (snd opts) = true -> waived w (fst opts') (snd opts') = true.

(** A finding of a Python project, with its rule, its text range start
    offset and its key. *)
Definition python_finding (k : string) (r : pystr) (offset : option Z) : Finding :=
  {| key := k;
     endpoint := "https://sonar.example.org";
     _json := {| j_author := Some "alice"; j_type := Some "CODE_SMELL";
                 j_severity := Some "MAJOR"; j_message := Some "Use a generator";
                 j_status := Some "OPEN"; j_resolution := None; j_rule := r;
                 j_ruleReference := None; j_line := Some (PInt 12);
                 j_lineNumber := None; j_component := Some "proj:src/app.py";
                 j_path := None; j_textRange := Some (mkTextRange offset) |};
     severity := Some "MAJOR";
     type := Some "CODE_SMELL";
     author := Some "alice";
     status := Some "OPEN";
     resolution := None;
     rule := r;
     line := PInt 12;
     component := None;
     message := Some "Use a generator";
     modification_date := 1700000000;
     hash := Some "5f2b9c" |}.

(** A raw record of the search shape with the given [line] value. *)
Definition search_record (l : option PyVal) : RawRecord :=
  {| j_author := Some "alice"; j_type := Some "BUG"; j_severity := Some "MAJOR";
     j_message := Some "Null pointer"; j_status := Some "OPEN"; j_resolution := None;
     j_rule := Some "java:S2259"; j_ruleReference := None; j_line := l;
     j_lineNumber := None; j_component := Some "proj:src/A.java"; j_path := None;
     j_textRange := None |}.

(** The string holds no line feed. *)
Fixpoint one_line (s : string) : bool :=
  match s with
  | EmptyString => true
  | String c s' => negb (Ascii.eqb c PyStr.newline) && one_line s'
  end.

(** The string holds no colon. *)
Fixpoint colon_free (s : string) : bool :=
  match s with
  | EmptyString => true
  | String c s' => negb (Ascii.eqb c ":"%char) && colon_free s'
  end.

(** [marker] occurs in [s] right after the prefix [p]. *)
Definition occurs_after (marker s p : string) : Prop :=
  exists t, s = p +:+ marker +:+ t.

(** [seg] is the final colon-separated segment of [s]. *)
Definition final_segment (s seg : string) : Prop :=
  colon_free seg = true /\ (s = seg \/ exists p, s = p +:+ ":" +:+ seg).

(** The stripping as the specification words it: [r] is [s] without a
    suffix that starts with [marker], and [s] itself when [marker] does not
    occur. *)
Definition suffix_stripped (marker s r : string) : Prop :=
  occurs_after marker s r \/ ((forall p, ~ occurs_after marker s p) /\ r = s).

(** The derivation as the specification words it. *)
Definition file_as_specified (self : Finding) (res : option string) : Prop :=
  match j_component (_json self) with
  | Some comp =>
      exists c1 c2 seg,
        suffix_stripped ":BRANCH:" comp c1
        /\ suffix_stripped ":PULL_REQUEST:" c1 c2
        /\ final_segment c2 seg
        /\ res = Some seg
  | None => res = j_path (_json self)
  end.

(** The stripping as the code does it: the marker is looked for on the
    first line only, and the suffix that starts at its last occurrence
    there is removed. *)
Definition first_line_cut (marker s p : string) : Prop :=
  one_line p = true /\ occurs_after marker s p.

Definition last_cut_stripped (marker s r : string) : Prop :=
  (first_line_cut marker s r
   /\ forall p, first_line_cut marker s p -> (String.length p <= String.length r)%nat)
  \/ ((forall p, ~ first_line_cut marker s p) /\ r = s).

(** [":".join(l)]. *)
Fixpoint join_colon (l : list string) : string :=
  match l with
  | [] => ""
  | x :: l' =>
      match l' with
      | [] => x
      | _ :: _ => x +:+ ":" +:+ join_colon l'
      end
  end.

(** Every prefix of [s] that is followed by [marker], shortest first. *)
Fixpoint prefixes_before (marker s : string) : list string :=
  (if PyStr.startswith marker s then [""] else [])
  ++ match s with
     | EmptyString => []
     | String c s' => String c <$> prefixes_before marker s'
     end.

(** A finding whose raw record has the given [component]. *)
Definition finding_of_component (comp : string) : Finding :=
  {| key := "AY-1";
     endpoint := "https://sonar.example.org";
     _json := {| j_author := None; j_type := None; j_severity := None; j_message := None;
                 j_status := Some "OPEN"; j_resolution := None; j_rule := None;
                 j_ruleReference := None; j_line := None; j_lineNumber := None;
                 j_component := Some comp; j_path := None; j_textRange := None |};
     severity := None; type := None; author := None; status := Some "OPEN";
     resolution := None; rule := None; line := PNone; component := None; message := None;
     modification_date := 1700000000; hash := None |}.

(** A component identifier whose file name holds a line feed. *)
Definition two_line_component : string :=
  "proj:src/a" +:+ String PyStr.newline "b.py:BRANCH:main".


(** A uuid for the examples: the key of the object and its platform. *)
Definition key_at_endpoint (f : Finding) : string :=
  key f +:+ "@" +:+ endpoint f.

(** No finding has a change event. *)
Definition no_history : Finding -> gmap string Changelog.t :=
  fun _ => ∅.

(** Every finding has one change event, made by [bob]. *)
Definition edited_by_bob : Finding -> gmap string Changelog.t :=
  fun _ => {[ "AY-c1" := Changelog.mk "bob" 1700000100 ]}.

(** The findings of the scenarios of the specification: rule [S100], hash
    [abc], the same message, file path, author, type and severity. *)
Definition scenario_finding (k : string) (ln : Z) (comp : pystr) : Finding :=
  {| key := k;
     endpoint := "https://sonar.example.org";
     _json := {| j_author := Some "alice"; j_type := Some "CODE_SMELL";
                 j_severity := Some "MINOR"; j_message := Some "Rename this method";
                 j_status := Some "OPEN"; j_resolution := None; j_rule := Some "S100";
                 j_ruleReference := None; j_line := Some (PInt ln);
                 j_lineNumber := None; j_component := Some "proj:src/A.java";
                 j_path := None; j_textRange := None |};
     severity := Some "MINOR";
     type := Some "CODE_SMELL";
     author := Some "alice";
     status := Some "OPEN";
     resolution := None;
     rule := Some "S100";
     line := PInt ln;
     component := comp;
     message := Some "Rename this method";
     modification_date := 1700000000;
     hash := Some "abc" |}.

(** Three findings of one Python file: a source finding, a candidate that
    agrees with it on every dimension, a candidate of another rule. *)
Definition source_finding : Finding := python_finding "AY-1" (Some "python:S1481") (Some 4).
Definition twin_finding : Finding := python_finding "AY-2" (Some "python:S1481") (Some 4).
Definition unrelated_finding : Finding := python_finding "AY-3" (Some "python:S125") (Some 4).

(** A finding of the same file that has no rule. *)
Definition ruleless_finding : Finding := python_finding "AY-4" None (Some 4).

(** The waiver [ignore_line=True] alone. *)
Definition only_ignore_line : Kwargs := mkKwargs None (Some true) None None None.

(** * Further methods of the class *)

(** ** Export to JSON *)

(** A value of the dict [vars(self)]: [None], an [int] or a [str], or
    another object (a dict, a datetime, the platform), of which only the
    truth value matters. *)
Inductive Attr : Type :=
| AVal (v : PyVal)
| AObj (truth : bool).

#[global] Instance Attr_eq_dec : EqDecision Attr.
Proof. solve_decision. Defined.

Definition attr_of_str (s : pystr) : Attr :=
  match s with
  | Some s => AVal (PStr s)
  | None => AVal PNone
  end.

(** The truth value of [x] in [if x:]. *)
Definition truthy (x : Attr) : bool :=
  match x with
  | AVal PNone => false
  | AVal (PInt n) => negb (n =? 0)
  | AVal (PStr s) => negb (bool_decide (s = ""))
  | AObj truth => truth
  end.

(** [x is None or x == ""]. *)
Definition none_or_empty (x : Attr) : bool :=
  bool_decide (x = AVal PNone) || bool_decide (x = AVal (PStr "")).

(** [x == s] for a [str] [s]. *)
Definition attr_is_str (x : Attr) (s : string) : bool :=
  bool_decide (x = AVal (PStr s)).

Definition _JSON_FIELDS_REMAPPED : list (string * string) :=
  [("pull_request", "pullRequest"); ("_comments", "comments")].

Definition _JSON_FIELDS_PRIVATE : list string :=
  ["endpoint"; "id"; "_json"; "_changelog"; "assignee"; "hash"; "sonarqube";
   "creation_date"; "modification_date"; "_debt"; "component"; "language"].

(** The dict [status_conversion] of [to_json], in insertion order. *)
Definition status_conversion : list (string * string) :=
  [("WONTFIX", "ACCEPTED"); ("REOPENED", "OPEN"); ("REMOVED", "FIXED")].

(** [vars(self)]: the attributes this development models, over [others],
    the attributes it does not ([assignee], [projectKey], [language],
    [_changelog], [_comments], [creation_date], [branch], [pull_request]
    and those of [SqObject] and of the subclasses). *)
Definition vars (self : Finding) (others : gmap string Attr) : gmap string Attr :=
  list_to_map
    [("key", AVal (PStr (key self)));
     ("endpoint", AObj true);
     ("_json", AObj true);
     ("severity", attr_of_str (severity self));
     ("type", attr_of_str (type self));
     ("author", attr_of_str (author self));
     ("status", attr_of_str (status self));
     ("resolution", attr_of_str (resolution self));
     ("rule", attr_of_str (rule self));
     ("line", AVal (line self));
     ("component", attr_of_str (component self));
     ("message", attr_of_str (message self));
     ("modification_date", AObj true);
     ("hash", attr_of_str (hash self))]
  ∪ others.

(** The loop of lines 197 and 198: [data[new_name] = data.pop(old_name, None)]. *)
Definition remap_fields (data : gmap string Attr) : gmap string Attr :=
  foldl (fun data names =>
           <[names.2 := default (AVal PNone) (data !! names.1)]> (delete names.1 data))
    data _JSON_FIELDS_REMAPPED.

(** Lines 203 and 204. *)
Definition resolution_as_status (data : gmap string Attr) : gmap string Attr :=
  if truthy (default (AVal PNone) (data !! "resolution")) then
    <["status" := default (AVal PNone) (data !! "resolution")]> (delete "resolution" data)
  else data.

(** The loop of lines 206 to 209; [data["status"]] raises [KeyError] when
    the key is absent. *)
Fixpoint convert_status (conversion : list (string * string)) (data : gmap string Attr)
  : Res (gmap string Attr) :=
  match conversion with
  | [] => Ok data
  | (old, new) :: rest =>
      match data !! "status" with
      | None => Raise KeyError
      | Some st =>
          if attr_is_str st old then Ok (<["status" := AVal (PStr new)]> data)
          else convert_status rest data
      end
  end.

(** The loop of lines 210 and 211. *)
Definition drop_private (data : gmap string Attr) : gmap string Attr :=
  foldl (fun data field => delete field data) data _JSON_FIELDS_PRIVATE.

(** The loop of lines 212 to 214, over the items of the copy. *)
Definition drop_empty (data : gmap string Attr) : gmap string Attr :=
  foldl (fun acc kv => if none_or_empty kv.2 then delete kv.1 acc else acc)
    data (map_to_list data).

(** [Finding.to_json].  [creationDate] and [updateDate] are the two
    results of [strftime]; the format, hence [without_time], only matters
    to them. *)
Definition to_json (self : Finding) (others : gmap string Attr)
  (creationDate updateDate : string) : Res (gmap string Attr) :=
  let data := vars self others in
  let data := remap_fields data in
  let data := <["effort" := AVal (PStr "")]> data in
  let data := <["file" := attr_of_str (file self)]> data in
  let data := <["creationDate" := AVal (PStr creationDate)]> data in
  let data := <["updateDate" := AVal (PStr updateDate)]> data in
  let data := resolution_as_status data in
  res_bind (convert_status status_conversion data) (fun data =>
    Ok (drop_empty (drop_private data))).

(** The dict [data] when line 205 is reached. *)
Definition before_conversion (self : Finding) (others : gmap string Attr)
  (creationDate updateDate : string) : gmap string Attr :=
  resolution_as_status
    (<["updateDate" := AVal (PStr updateDate)]>
       (<["creationDate" := AVal (PStr creationDate)]>
          (<["file" := attr_of_str (file self)]>
             (<["effort" := AVal (PStr "")]> (remap_fields (vars self others)))))).

(** A status after the conversion of [status_conversion]. *)
Definition converted (s : string) : string :=
  if bool_decide (s = "WONTFIX") then "ACCEPTED"
  else if bool_decide (s = "REOPENED") then "OPEN"
  else if bool_decide (s = "REMOVED") then "FIXED"
  else s.

(** The status a dict holds after the lines 203 to 209. *)
Definition converted_attr (st : Attr) : Attr :=
  match st with
  | AVal (PStr s) => AVal (PStr (converted s))
  | _ => st
  end.

(** The status that [to_json] exports: the resolution when the finding
    has a non-empty one, its status otherwise, converted. *)
Definition exported_status (self : Finding) : pystr :=
  converted <$>
    match resolution self with
    | Some r => if bool_decide (r = "") then status self else Some r
    | None => status self
    end.

(** What the last loop of [to_json] leaves of an entry. *)
Definition exported (x : option Attr) : option Attr :=
  match x with
  | Some v => if none_or_empty v then None else Some v
  | None => None
  end.

(** The keys that [to_json] sets, renames or removes by name. *)
Definition reserved_keys : list string :=
  ["pull_request"; "pullRequest"; "_comments"; "comments"; "effort"; "file";
   "creationDate"; "updateDate"; "resolution"; "status"] ++ _JSON_FIELDS_PRIVATE.

(** ** The post-search filter *)

(** The dict [filters] of [post_search_filter]; [None] is an absent key. *)
Record Filters : Type := mkFilters {
  f_languages : option (list string);
  f_createdAfter : option string;
  f_createdBefore : option string
}.

Section PostSearchFilter.

(** The type of the findings; the function reads two things of a finding. *)
Context {F : Type}.

(** [rules.get_object(key=finding.rule, endpoint=finding.endpoint).language];
    [sonar.rules] is not under src. *)
Variable rule_language : F -> string.

(** [finding.creation_date]. *)
Variable creation_date : F -> Z.

(** [util.string_to_date]; [sonar.utilities] is not under src. *)
Variable string_to_date : string -> Z.

(** The body of the loop of lines 474 to 482. *)
Definition filter_step (filters : Filters) (filtered_findings : gmap string F)
  (item : string * F) : gmap string F :=
  let '(key, finding) := item in
  let filtered_findings :=
    match f_languages filters with
    | Some languages =>
        if (0 <? Z.of_nat (length languages))
           && negb (bool_decide (rule_language finding ∈ languages))
        then delete key filtered_findings
        else filtered_findings
    | None => filtered_findings
    end in
  let filtered_findings :=
    match f_createdAfter filters with
    | Some d =>
        if creation_date finding <? string_to_date d
        then delete key filtered_findings
        else filtered_findings
    | None => filtered_findings
    end in
  match f_createdBefore filters with
  | Some d =>
      if creation_date finding >? string_to_date d
      then delete key filtered_findings
      else filtered_findings
  | None => filtered_findings
  end.

(** [post_search_filter]. *)
Definition post_search_filter (findings : gmap string F) (filters : Filters)
  : gmap string F :=
  foldl (filter_step filters) findings (map_to_list findings).

(** Whether a finding passes the three tests of the loop. *)
Definition passes_b (filters : Filters) (finding : F) : bool :=
  match f_languages filters with
  | Some languages =>
      negb ((0 <? Z.of_nat (length languages))
            && negb (bool_decide (rule_language finding ∈ languages)))
  | None => true
  end
  && match f_createdAfter filters with
     | Some d => negb (creation_date finding <? string_to_date d)
     | None => true
     end
  && match f_createdBefore filters with
     | Some d => negb (creation_date finding >? string_to_date d)
     | None => true
     end.

(** What a finding must satisfy to pass the filters. *)
Definition passes (filters : Filters) (finding : F) : Prop :=
  (forall languages, f_languages filters = Some languages -> languages <> [] ->
                     rule_language finding ∈ languages)
  /\ (forall d, f_createdAfter filters = Some d -> string_to_date d <= creation_date finding)
  /\ (forall d, f_createdBefore filters = Some d -> creation_date finding <= string_to_date d).

End PostSearchFilter.

(** ** Helpers of the statements *)

(** The verdict of [can_be_synced] on a finding. *)
Definition sync_verdict (changelog_of : Finding -> gmap string Changelog.t)
  (finding : Finding) (user_list : option (list string)) : bool :=
  match outcome (can_be_synced changelog_of finding user_list) with
  | Ok b => b
  | Raise _ => false
  end.

(** A loaded finding seen as the object [_load_common] runs on. *)
Definition as_object (f : Finding) : FindingOf (option RawRecord) :=
  {| key := key f; endpoint := endpoint f; _json := Some (_json f);
     severity := severity f; type := type f; author := author f; status := status f;
     resolution := resolution f; rule := rule f; line := line f;
     component := component f; message := message f;
     modification_date := modification_date f; hash := hash f |}.

(** Every waiver set. *)
Definition all_waivers : Kwargs :=
  mkKwargs (Some true) (Some true) (Some true) (Some true) (Some true).

(** Whether a dimension counts for the score: equal or waived. *)
Definition dimension_ok (w : Waiver) (self other : Finding) (ignore_component : bool)
  (kwargs : Kwargs) : bool :=
  match w with
  | W_message => py_eq (message self) (message other)
  | W_line => py_eq (line self) (line other)
  | W_component => py_eq (component self) (component other)
  | W_author => py_eq (author self) (author other)
  | W_type => py_eq (type self) (type other)
  | W_severity => py_eq (severity self) (severity other)
  end
  || waived w ignore_component kwargs.

(** A finding closed as won't fix. *)
Definition wontfix_finding : Finding :=
  {| key := "AY-7";
     endpoint := "https://sonar.example.org";
     _json := search_record (Some (PInt 3));
     severity := Some "MAJOR";
     type := Some "BUG";
     author := Some "";
     status := Some "RESOLVED";
     resolution := Some "WONTFIX";
     rule := Some "java:S2259";
     line := PInt 3;
     component := Some "proj:src/A.java";
     message := Some "Null pointer";
     modification_date := 1700000000;
     hash := Some "5f2b9c" |}.

(** The unmodelled attributes of the sample finding. *)
Definition sample_others : gmap string Attr :=
  {[ "projectKey" := AVal (PStr "proj");
     "pull_request" := AVal (PStr "12");
     "branch" := AVal PNone;
     "_comments" := AObj false;
     "assignee" := AVal (PStr "bob") ]}.

(** The component identifier of a file on a branch or in a pull request:
    project key, path, marker and branch name or pull request id. *)
Definition scoped_component (project path marker name : string) : string :=
  project +:+ ":" +:+ path +:+ marker +:+ name.

(** The string without its first character. *)
Definition str_tail (s : string) : string :=
  match s with
  | EmptyString => EmptyString
  | String _ s' => s'
  end.

(** The number of colons of a string. *)
Fixpoint count_colon (s : string) : nat :=
  match s with
  | EmptyString => 0%nat
  | String c s' => ((if Ascii.eqb c ":"%char then 1 else 0) + count_colon s')%nat
  end.

(** A finding whose raw record has the component identifier of a file on
    a branch. *)
Definition branch_finding : Finding :=
  finding_of_component (scoped_component "org:proj" "src/app.py" ":BRANCH:" "release-1.0").

(** A raw record that only carries a status and a path. *)
Definition status_record : RawRecord :=
  {| j_author := None; j_type := None; j_severity := None; j_message := None;
     j_status := Some "CLOSED"; j_resolution := None; j_rule := None;
     j_ruleReference := None; j_line := None; j_lineNumber := None;
     j_component := None; j_path := Some "other/path.py"; j_textRange := None |}.

(** Findings reduced to what the post-search filter reads: the language
    of the rule and the creation date. *)
Definition sample_findings : gmap string (string * Z) :=
  {[ "AY-1" := ("py", 1700000000); "AY-2" := ("java", 1700000500);
     "AY-3" := ("py", 1600000000) ]}.

(** A date parser for the examples: the digits of a timestamp. *)
Definition sample_date (s : string) : Z := default 0 (PyInt.of_str s).

(** * Properties *)

(** ** Strings and integers *)

Example int_of_str_12 : PyInt.of_str " 12 " = Some 12.
Proof. reflexivity. Qed.

Example int_of_str_neg : PyInt.of_str "-1_000" = Some (-1000).
Proof. reflexivity. Qed.

Example int_of_str_abc : PyInt.of_str "abc" = None.
Proof. reflexivity. Qed.

Example int_of_str_null : PyInt.of_str "null" = None.
Proof. reflexivity. Qed.

Example search_before_branch :
  PyStr.search_before ":BRANCH:" "src:sonar/hot.py:BRANCH:somebranch" = Some "src:sonar/hot.py".
Proof. reflexivity. Qed.

Example search_before_greedy :
  PyStr.search_before ":BRANCH:" "a:BRANCH:b:BRANCH:c" = Some "a:BRANCH:b".
Proof. reflexivity. Qed.

Example search_before_none :
  PyStr.search_before ":BRANCH:" "src:sonar/hot.py" = None.
Proof. reflexivity. Qed.

Example last_segment_path :
  PyStr.last_segment "src:sonar/hot.py" = "sonar/hot.py".
Proof. reflexivity. Qed.

Example contains_rule : PyStr.contains "S6540" "python:S6540" = true.
Proof. reflexivity. Qed.


(** ** The effect monad *)

Lemma outcome_bind {A B : Type} (m : Py A) (k : A -> Py B) :
  outcome (py_bind m k) =
  match outcome m with
  | Ok a => outcome (k a)
  | Raise e => Raise e
  end.
Proof.
  destruct m as [[a | e] t]; simpl; [| reflexivity].
  destruct (k a) as [r t']; reflexivity.
Qed.

Lemma calls_bind {A B : Type} (m : Py A) (k : A -> Py B) :
  calls (py_bind m k) =
  match outcome m with
  | Ok a => calls m ++ calls (k a)
  | Raise e => calls m
  end.
Proof.
  destruct m as [[a | e] t]; simpl; [| reflexivity].
  destruct (k a) as [r t']; reflexivity.
Qed.

Lemma outcome_ret {A : Type} (a : A) : outcome (py_ret a) = Ok a.
Proof. reflexivity. Qed.

(** ** History and the sync policy *)

Section HistoryFacts.

Variable changelog_of : Finding -> gmap string Changelog.t.

Lemma has_changelog_no_cutoff (f : Finding) :
  has_changelog changelog_of f None
  = (Ok (bool_decide (changelog_of f ≠ ∅)), [ChangelogCall f]).
Proof.
  unfold has_changelog, changelog, py_bind, py_ret; simpl.
  do 2 f_equal.
  destruct (decide (changelog_of f = ∅)) as [E | N].
  - rewrite E, map_size_empty. rewrite bool_decide_eq_false_2; [reflexivity | auto].
  - rewrite bool_decide_eq_true_2 by assumption.
    apply Z.ltb_lt. apply map_size_non_empty_iff in N. lia.
Qed.

Lemma modifiers_outcome (f : Finding) :
  outcome (modifiers changelog_of f)
  = Ok (list_to_set (Changelog.author <$> (map_to_list (changelog_of f)).*2)).
Proof. reflexivity. Qed.

Lemma elem_of_modifiers (f : Finding) (u : string) :
  u ∈ (list_to_set (Changelog.author <$> (map_to_list (changelog_of f)).*2) : gset string)
  <-> exists k c, changelog_of f !! k = Some c /\ Changelog.author c = u.
Proof.
  rewrite elem_of_list_to_set, list_elem_of_fmap. split.
  - intros (c & -> & Hc). apply list_elem_of_fmap in Hc as ([k c'] & -> & Hkc).
    apply elem_of_map_to_list in Hkc. exists k, c'. auto.
  - intros (k & c & Hkc & <-). exists c. split; [reflexivity |].
    apply list_elem_of_fmap. exists (k, c). split; [reflexivity |].
    by apply elem_of_map_to_list.
Qed.

Lemma all_in_user_list_spec (us l : list string) :
  all_in_user_list us l = true <-> forall u, u ∈ us -> u ∈ l.
Proof.
  induction us as [| u us IH]; simpl.
  - split; [intros _ u Hu; inversion Hu | reflexivity].
  - destruct (decide (u ∈ l)) as [Hin | Hout].
    + rewrite bool_decide_eq_true_2 by assumption. simpl. rewrite IH. split.
      * intros H v Hv. apply elem_of_cons in Hv as [-> | Hv]; auto.
      * intros H v Hv. apply H. by apply elem_of_cons; right.
    + rewrite bool_decide_eq_false_2 by assumption. simpl. split; [discriminate |].
      intros H. exfalso. apply Hout, H. by apply elem_of_cons; left.
Qed.

Lemma can_be_synced_returns (f : Finding) (user_list : option (list string)) :
  exists b, outcome (can_be_synced changelog_of f user_list) = Ok b.
Proof. destruct user_list; eexists; reflexivity. Qed.

(** C3. [can_be_synced(f, None)] returns [True] exactly when [f] has no
    changelog entry; with an allowlist it returns [True] exactly when the
    author of every changelog entry is in the allowlist, hence [True] for
    an empty changelog. *)
Theorem can_be_synced_policy (f : Finding) :
  (exists b, outcome (can_be_synced changelog_of f None) = Ok b
             /\ (b = true <-> size (changelog_of f) = 0%nat))
  /\ (forall allowlist : list string,
        exists b, outcome (can_be_synced changelog_of f (Some allowlist)) = Ok b
                  /\ (b = true <->
                      forall k c, changelog_of f !! k = Some c ->
                                  Changelog.author c ∈ allowlist)
                  /\ (size (changelog_of f) = 0%nat -> b = true)).
Proof.
  split.
  - eexists. split; [reflexivity |].
    rewrite negb_true_iff, Z.ltb_ge. lia.
  - intros allowlist. eexists. split; [reflexivity |].
    assert (Hiff : all_in_user_list
              (elements (list_to_set
                 (Changelog.author <$> (map_to_list (changelog_of f)).*2) : gset string))
              allowlist = true
            <-> forall k c, changelog_of f !! k = Some c ->
                            Changelog.author c ∈ allowlist).
    { rewrite all_in_user_list_spec. split.
      - intros H k c Hkc. apply H, elem_of_elements, elem_of_modifiers. eauto.
      - intros H u Hu. apply elem_of_elements, elem_of_modifiers in Hu
          as (k & c & Hkc & <-). eauto. }
    split; [exact Hiff |].
    intros Hsz. apply Hiff. intros k c Hkc.
    apply map_size_empty_iff in Hsz. rewrite Hsz in Hkc. by rewrite lookup_empty in Hkc.
Qed.

(** C6. With a cutoff strictly later than the modification date,
    [has_changelog] returns [False] and makes no [changelog()] call; with
    a cutoff equal to the modification date it calls [changelog()] once
    and returns whether the finding has a change event. *)
Theorem has_changelog_cutoff (f : Finding) (added_after : Z) :
  (modification_date f < added_after ->
     has_changelog changelog_of f (Some added_after) = (Ok false, []))
  /\ (modification_date f = added_after ->
        outcome (has_changelog changelog_of f (Some added_after))
        = Ok (bool_decide (changelog_of f ≠ ∅))
        /\ calls (has_changelog changelog_of f (Some added_after)) = [ChangelogCall f]).
Proof.
  split.
  - intros Hlt. unfold has_changelog.
    replace (added_after >? modification_date f) with true; [reflexivity |].
    symmetry. apply Z.gtb_lt. lia.
  - intros Heq.
    assert (E : has_changelog changelog_of f (Some added_after)
                = has_changelog changelog_of f None).
    { unfold has_changelog. subst added_after.
      rewrite Z.gtb_ltb, Z.ltb_irrefl. reflexivity. }
    rewrite E, has_changelog_no_cutoff. split; reflexivity.
Qed.

End HistoryFacts.

(** ** The approximate matcher *)

Lemma score_is_table (self other : Finding) (ic : bool) (kw : Kwargs) :
  score self other ic kw = score_table self other ic kw.
Proof.
  unfold score, score_table, points. rewrite orb_false_r.
  repeat match goal with
         | |- context [if ?b then _ else _] => destruct b
         end; reflexivity.
Qed.

Lemma points_bounds (w : Z) (e b : bool) : 0 <= w -> 0 <= points w e b <= w.
Proof. unfold points. destruct (e || b); lia. Qed.

Lemma points_mono (w : Z) (e b b' : bool) :
  0 <= w -> (b = true -> b' = true) -> points w e b <= points w e b'.
Proof.
  unfold points. intros Hw Hb.
  destruct e, b, b'; simpl; try lia; specialize (Hb eq_refl); discriminate.
Qed.

Lemma score_bounds (self other : Finding) (ic : bool) (kw : Kwargs) :
  0 <= score self other ic kw <= 9.
Proof.
  rewrite score_is_table. unfold score_table.
  repeat match goal with
         | |- context [points ?w ?e ?b] =>
             let H := fresh in
             assert (H : 0 <= points w e b <= w) by (apply points_bounds; lia);
             generalize dependent (points w e b); intros
         end.
  lia.
Qed.

(** C2. [almost_identical_to] returns [False] as soon as the rules or the
    hashes differ; otherwise the score is the one of the table (message 2,
    file path 2 without waiver, line, component, author, type and severity
    1 each, a waived dimension scoring on mismatch too), it lies between 0
    and 9, and the result is [True] exactly when the score is at least 7. *)
Theorem almost_identical_to_scoring (self other : Finding) (ic : bool) (kw : Kwargs) :
  (rule self <> rule other \/ hash self <> hash other ->
     almost_identical_to self other ic kw = false)
  /\ score self other ic kw = score_table self other ic kw
  /\ 0 <= score self other ic kw <= 9
  /\ (rule self = rule other -> hash self = hash other ->
        (almost_identical_to self other ic kw = true <-> 7 <= score self other ic kw)).
Proof.
  split; [| split; [apply score_is_table | split; [apply score_bounds |]]].
  - intros Hgate. unfold almost_identical_to, py_eq.
    destruct Hgate as [H | H]; rewrite (bool_decide_eq_false_2 _ H); simpl;
      [reflexivity | by rewrite orb_true_r].
  - intros Hr Hh. unfold almost_identical_to, py_eq.
    rewrite (bool_decide_eq_true_2 _ Hr), (bool_decide_eq_true_2 _ Hh). simpl.
    apply Z.leb_le.
Qed.

Lemma waivers_le_set_waiver (w : Waiver) (opts : bool * Kwargs) :
  waivers_le opts (set_waiver w opts).
Proof.
  destruct opts as [ic kw]. intros w0. destruct w, w0; simpl; auto.
Qed.

Lemma score_waivers_le (self other : Finding) (ic ic' : bool) (kw kw' : Kwargs) :
  waivers_le (ic, kw) (ic', kw') ->
  score self other ic kw <= score self other ic' kw'.
Proof.
  intros Hle. rewrite !score_is_table. unfold score_table.
  pose proof (Hle W_message) as Hm. pose proof (Hle W_line) as Hl.
  pose proof (Hle W_component) as Hc. pose proof (Hle W_author) as Ha.
  pose proof (Hle W_type) as Ht. pose proof (Hle W_severity) as Hs.
  simpl in Hm, Hl, Hc, Ha, Ht, Hs.
  pose proof (points_mono 2 (py_eq (message self) (message other)) _ _ ltac:(lia) Hm).
  pose proof (points_mono 1 (py_eq (line self) (line other)) _ _ ltac:(lia) Hl).
  pose proof (points_mono 1 (py_eq (component self) (component other)) _ _ ltac:(lia) Hc).
  pose proof (points_mono 1 (py_eq (author self) (author other)) _ _ ltac:(lia) Ha).
  pose proof (points_mono 1 (py_eq (type self) (type other)) _ _ ltac:(lia) Ht).
  pose proof (points_mono 1 (py_eq (severity self) (severity other)) _ _ ltac:(lia) Hs).
  lia.
Qed.

(** C7. Setting one more waiver never lowers the score, and a pair that
    is an approximate match under some waivers is one under every set of
    waivers that contains them. *)
Theorem score_monotone (self other : Finding) :
  (forall (w : Waiver) (ic : bool) (kw : Kwargs),
     score self other ic kw
     <= score self other (fst (set_waiver w (ic, kw))) (snd (set_waiver w (ic, kw))))
  /\ (forall (ic ic' : bool) (kw kw' : Kwargs),
        waivers_le (ic, kw) (ic', kw') ->
        score self other ic kw <= score self other ic' kw'
        /\ (almost_identical_to self other ic kw = true ->
            almost_identical_to self other ic' kw' = true)).
Proof.
  split.
  - intros w ic kw. apply score_waivers_le.
    pose proof (waivers_le_set_waiver w (ic, kw)) as H.
    destruct (set_waiver w (ic, kw)); exact H.
  - intros ic ic' kw kw' Hle.
    pose proof (score_waivers_le self other ic ic' kw kw' Hle) as Hs.
    split; [exact Hs |].
    unfold almost_identical_to.
    destruct (negb (py_eq (rule self) (rule other)) || negb (py_eq (hash self) (hash other)));
      [discriminate |].
    rewrite !Z.leb_le. lia.
Qed.

(** ** The strict matcher *)

Lemma strictly_identical_same_key (self other : Finding) (ic : bool) :
  key self = key other -> strictly_identical_to self other ic = Ok true.
Proof.
  intros H. unfold strictly_identical_to, py_eq. by rewrite bool_decide_eq_true_2.
Qed.

(** What the code does for the rule [python:S6540] itself: two start
    offsets that differ make the pair not strictly identical. *)
Lemma strictly_identical_S6540_offsets (self other : Finding) (ic : bool) (col1 col2 : Z) :
  key self <> key other ->
  rule self = Some "python:S6540" ->
  start_offset self = Some col1 -> start_offset other = Some col2 -> col1 <> col2 ->
  strictly_identical_to self other ic = Ok false.
Proof.
  intros Hk Hr H1 H2 Hne. unfold strictly_identical_to, prelim_check, py_eq at 1.
  rewrite (bool_decide_eq_false_2 _ Hk), Hr, H1, H2. simpl.
  unfold py_eq at 6. rewrite (bool_decide_eq_false_2 _ Hne).
  by rewrite andb_false_r.
Qed.

(** The offsets are compared for every rule that is a substring of
    [python:S6540], and not for the other rules. *)
Lemma strictly_identical_other_rule (self other : Finding) (ic : bool) (r : string) :
  key self <> key other ->
  rule self = Some r -> PyStr.contains r "python:S6540" = false ->
  strictly_identical_to self other ic
  = Ok (py_eq (rule self) (rule other)
        && py_eq (hash self) (hash other)
        && py_eq (message self) (message other)
        && py_eq (file self) (file other)
        && (py_eq (component self) (component other) || ic)).
Proof.
  intros Hk Hr Hc. unfold strictly_identical_to, prelim_check, py_eq at 1.
  rewrite (bool_decide_eq_false_2 _ Hk), Hr, Hc. simpl. by rewrite andb_true_r.
Qed.

(** C5. The offset requirement is not limited to the rule [python:S6540]:
    two findings of the rule [python:S654] that agree on rule, hash,
    message, file path and component but carry different start offsets are
    not strictly identical, and a finding without a rule makes the test
    raise [TypeError]. *)
Theorem strictly_identical_offset_other_rule :
  let a := python_finding "AY-1" (Some "python:S654") (Some 4) in
  let b := python_finding "AY-2" (Some "python:S654") (Some 8) in
  rule a <> Some "python:S6540"
  /\ rule a = rule b /\ hash a = hash b /\ message a = message b
  /\ file a = file b /\ component a = component b
  /\ strictly_identical_to a b false = Ok false
  /\ strictly_identical_to (python_finding "AY-1" (Some "python:S654") (Some 4))
       (python_finding "AY-2" (Some "python:S654") (Some 4)) false = Ok true
  /\ strictly_identical_to (python_finding "AY-1" None (Some 4))
       (python_finding "AY-2" None (Some 4)) false = Raise TypeError.
Proof. simpl. repeat split; try reflexivity. discriminate. Qed.

(** ** Loading *)

Lemma load_common_without_status (int_of_str : string -> option Z)
  (self : FindingOf (option RawRecord)) (jsondata : RawRecord) :
  j_status jsondata = None -> _load_common int_of_str self jsondata = Raise KeyError.
Proof. intros H. unfold _load_common. by rewrite H. Qed.




(** ** The derived file path *)

Lemma append_nil (t : string) : "" +:+ t = t.
Proof. reflexivity. Qed.

Lemma append_cons (c : ascii) (p t : string) : String c p +:+ t = String c (p +:+ t).
Proof. reflexivity. Qed.

Ltac str_simpl := rewrite ?append_cons, ?append_nil in *.

Lemma startswith_spec (m s : string) :
  PyStr.startswith m s = true <-> exists t, s = m +:+ t.
Proof.
  revert s. induction m as [| a m IH]; intros s; simpl.
  - split; [intros _; by exists s | reflexivity].
  - destruct s as [| b s]; [split; [discriminate | intros [t Ht]; discriminate] |].
    destruct (Ascii.eqb_spec a b) as [-> | Hne].
    + rewrite IH. split; intros [t Ht]; exists t; str_simpl; congruence.
    + split; [discriminate | intros [t Ht]; str_simpl; congruence].
Qed.

Lemma occurs_after_empty (m s : string) :
  occurs_after m s "" <-> PyStr.startswith m s = true.
Proof. unfold occurs_after. by rewrite startswith_spec. Qed.

Lemma occurs_after_cons (m : string) (c : ascii) (s p : string) :
  occurs_after m (String c s) p <->
  (p = "" /\ PyStr.startswith m (String c s) = true)
  \/ exists p', p = String c p' /\ occurs_after m s p'.
Proof.
  split.
  - intros [t Ht]. destruct p as [| d p'].
    + left. split; [reflexivity |]. apply startswith_spec. by exists t.
    + right. str_simpl. injection Ht as -> Ht.
      exists p'. split; [reflexivity | by exists t].
  - intros [[-> H] | (p' & -> & [t Ht])].
    + by apply occurs_after_empty.
    + exists t. str_simpl. by rewrite Ht.
Qed.

Lemma occurs_after_nil (m p : string) :
  occurs_after m "" p -> p = "" /\ PyStr.startswith m "" = true.
Proof.
  intros [t Ht]. destruct p; [| discriminate].
  split; [reflexivity |]. apply startswith_spec. by exists t.
Qed.

Lemma search_before_spec (m s : string) :
  match PyStr.search_before m s with
  | Some r =>
      first_line_cut m s r
      /\ forall p, first_line_cut m s p -> (String.length p <= String.length r)%nat
  | None => forall p, ~ first_line_cut m s p
  end.
Proof.
  induction s as [| c s IH]; simpl.
  - destruct (PyStr.startswith m "") eqn:E.
    + split; [split; [reflexivity | by apply occurs_after_empty] |].
      intros p [_ Hp]. apply occurs_after_nil in Hp as [-> _]. reflexivity.
    + intros p [_ Hp]. apply occurs_after_nil in Hp as [_ Hp]. congruence.
  - assert (Hlate : forall p', one_line (String c p') = true -> occurs_after m s p' ->
              exists r', (if Ascii.eqb c PyStr.newline then None else PyStr.search_before m s)
                         = Some r'
                         /\ (String.length p' <= String.length r')%nat).
    { intros p' Hline Hocc. simpl in Hline. apply andb_true_iff in Hline as [Hc Hline].
      apply negb_true_iff in Hc. rewrite Hc.
      destruct (PyStr.search_before m s) as [r' |].
      - exists r'. split; [reflexivity |]. apply IH. by split.
      - exfalso. apply (IH p'). by split. }
    destruct (if Ascii.eqb c PyStr.newline then None else PyStr.search_before m s)
      as [r' |] eqn:Elate.
    + destruct (Ascii.eqb c PyStr.newline) eqn:Ec; [discriminate |].
      rewrite Elate in IH. destruct IH as [[Hline Hocc] Hmax].
      split.
      * split; [simpl; by rewrite Ec | apply occurs_after_cons; right; eauto].
      * intros p [Hpl Hp]. apply occurs_after_cons in Hp as [[-> _] | (p' & -> & Hp')].
        -- simpl. lia.
        -- destruct (Hlate p' Hpl Hp') as (r'' & Hr & Hle).
           injection Hr as <-. simpl. lia.
    + destruct (PyStr.startswith m (String c s)) eqn:E.
      * split; [split; [reflexivity | by apply occurs_after_empty] |].
        intros p [Hpl Hp]. apply occurs_after_cons in Hp as [[-> _] | (p' & -> & Hp')].
        -- reflexivity.
        -- destruct (Hlate p' Hpl Hp') as (r'' & Hr & _). discriminate.
      * intros p [Hpl Hp]. apply occurs_after_cons in Hp as [[-> Hs] | (p' & -> & Hp')].
        -- congruence.
        -- destruct (Hlate p' Hpl Hp') as (r'' & Hr & _). discriminate.
Qed.

Lemma search_before_stripped (m s : string) :
  last_cut_stripped m s (default s (PyStr.search_before m s)).
Proof.
  pose proof (search_before_spec m s) as H.
  destruct (PyStr.search_before m s) as [r |]; simpl; [by left | by right].
Qed.

Lemma split_colon_join (s : string) :
  PyStr.split_colon s <> []
  /\ join_colon (PyStr.split_colon s) = s
  /\ Forall (fun x => colon_free x = true) (PyStr.split_colon s).
Proof.
  induction s as [| c s (Hne & Hjoin & Hfree)]; simpl.
  - repeat split; [discriminate | by constructor].
  - destruct (Ascii.eqb_spec c ":"%char) as [-> | Hc].
    + repeat split; [discriminate | | by constructor].
      simpl. destruct (PyStr.split_colon s); [done |]. by rewrite Hjoin.
    + destruct (PyStr.split_colon s) as [| h t]; [done |].
      repeat split; [discriminate | |].
      * simpl in *. destruct t; str_simpl; by rewrite Hjoin.
      * inversion Hfree; subst. constructor; [| assumption].
        simpl. apply andb_true_iff. split; [| assumption].
        apply negb_true_iff. by apply Ascii.eqb_neq.
Qed.

Lemma append_assoc (a b c : string) : (a +:+ b) +:+ c = a +:+ b +:+ c.
Proof. induction a as [| x a IH]; str_simpl; [reflexivity | by rewrite IH]. Qed.

Lemma last_of_join (l : list string) :
  l <> [] ->
  join_colon l = List.last l "" \/ exists p, join_colon l = p +:+ ":" +:+ List.last l "".
Proof.
  induction l as [| x l IH]; [done |]. intros _.
  destruct l as [| y l]; [by left |]. right.
  destruct IH as [IH | [p IH]]; [discriminate | |].
  - exists x. change (join_colon (x :: y :: l)) with (x +:+ ":" +:+ join_colon (y :: l)).
    rewrite IH. reflexivity.
  - exists (x +:+ ":" +:+ p).
    change (join_colon (x :: y :: l)) with (x +:+ ":" +:+ join_colon (y :: l)).
    rewrite IH. change (List.last (x :: y :: l) "") with (List.last (y :: l) "").
    rewrite !append_assoc. reflexivity.
Qed.

Lemma last_segment_final (s : string) : final_segment s (PyStr.last_segment s).
Proof.
  destruct (split_colon_join s) as (Hne & Hjoin & Hfree). unfold PyStr.last_segment. split.
  - rewrite Forall_forall in Hfree. apply Hfree.
    destruct (exists_last Hne) as (l' & x & ->). rewrite last_last.
    apply elem_of_app. right. by apply list_elem_of_singleton.
  - pose proof (last_of_join _ Hne) as H. by rewrite Hjoin in H.
Qed.

(** What [file] computes.  With a [component] key, each marker is looked
    for on the first line of the identifier only and the suffix from its
    last occurrence there is removed, first for [:BRANCH:], then for
    [:PULL_REQUEST:], and the final colon-separated segment of what is
    left is returned; without a [component] key the [path] value is
    returned, [None] when that key is absent too. *)
Theorem file_derivation (self : Finding) :
  match j_component (_json self) with
  | Some comp =>
      exists c1 c2 seg,
        last_cut_stripped ":BRANCH:" comp c1
        /\ last_cut_stripped ":PULL_REQUEST:" c1 c2
        /\ final_segment c2 seg
        /\ file self = Some seg
  | None => file self = j_path (_json self)
  end.
Proof.
  unfold file. destruct (j_component (_json self)) as [comp |].
  - eexists _, _, _. split; [apply search_before_stripped |].
    split; [apply search_before_stripped |].
    split; [apply last_segment_final | reflexivity].
  - by destruct (j_path (_json self)).
Qed.

Lemma occurs_after_prefixes (m s p : string) :
  occurs_after m s p -> p ∈ prefixes_before m s.
Proof.
  revert p. induction s as [| c s IH]; intros p Hp; simpl.
  - apply occurs_after_nil in Hp as [-> ->]. apply elem_of_app. left. by left.
  - apply occurs_after_cons in Hp as [[-> ->] | (p' & -> & Hp')]; apply elem_of_app.
    + left. by left.
    + right. apply list_elem_of_fmap. exists p'. auto.
Qed.

Example file_on_branch :
  file (finding_of_component "src:sonar/hot.py:BRANCH:somebranch") = Some "sonar/hot.py".
Proof. reflexivity. Qed.

Example file_on_pull_request :
  file (finding_of_component "proj:src/a.py:PULL_REQUEST:12") = Some "src/a.py".
Proof. reflexivity. Qed.

(** C9. [file] is to strip a [:BRANCH:] suffix from the component
    identifier and to return the final colon-separated segment of what is
    left, the file path.  For the identifier [proj:src/a], line feed,
    [b.py:BRANCH:main] it does not: the pattern has no [re.DOTALL], its dot
    stops at the line feed, nothing is stripped and [file] returns the
    branch name [main], which no reading of the derivation allows. *)
Theorem file_keeps_suffix_after_line_feed :
  file (finding_of_component two_line_component) = Some "main"
  /\ ~ file_as_specified (finding_of_component two_line_component)
         (file (finding_of_component two_line_component)).
Proof.
  split; [reflexivity |].
  unfold file_as_specified. simpl.
  intros (c1 & c2 & seg & H1 & H2 & (Hfree & H3) & H4).
  assert (E1 : c1 = "proj:src/a" +:+ String PyStr.newline "b.py").
  { destruct H1 as [Hocc | [Hno _]].
    - apply occurs_after_prefixes in Hocc.
      assert (E : prefixes_before ":BRANCH:" two_line_component
                  = ["proj:src/a" +:+ String PyStr.newline "b.py"]) by reflexivity.
      rewrite E in Hocc. by apply list_elem_of_singleton in Hocc.
    - exfalso. apply (Hno ("proj:src/a" +:+ String PyStr.newline "b.py")).
      by exists "main". }
  subst c1.
  assert (E2 : c2 = "proj:src/a" +:+ String PyStr.newline "b.py").
  { destruct H2 as [Hocc | [_ E]]; [| exact E].
    apply occurs_after_prefixes in Hocc.
    assert (E : prefixes_before ":PULL_REQUEST:"
                  ("proj:src/a" +:+ String PyStr.newline "b.py") = []) by reflexivity.
    rewrite E in Hocc. by apply elem_of_nil in Hocc. }
  subst c2.
  assert (E3 : seg = "src/a" +:+ String PyStr.newline "b.py").
  { destruct H3 as [<- | [p Hp]]; [discriminate Hfree |].
    assert (Hocc : occurs_after ":" ("proj:src/a" +:+ String PyStr.newline "b.py") p)
      by (by exists seg).
    apply occurs_after_prefixes in Hocc.
    assert (E : prefixes_before ":" ("proj:src/a" +:+ String PyStr.newline "b.py")
                = ["proj"]) by reflexivity.
    rewrite E in Hocc. apply list_elem_of_singleton in Hocc. subst p.
    cbv in Hp. by injection Hp as <-. }
  subst seg. discriminate H4.
Qed.

(** ** The driver *)

Section DriverFacts.

Variable uuid : Finding -> string.
Variable changelog_of : Finding -> gmap string Changelog.t.

Lemma py_bind_lift_ok {A B : Type} (a : A) (k : A -> Py B) :
  py_bind (py_lift (Ok a)) k = k a.
Proof. unfold py_bind, py_lift. by destruct (k a). Qed.

Lemma py_bind_lift_raise {A B : Type} (e : Exn) (k : A -> Py B) :
  py_bind (py_lift (Raise e)) k = (Raise e, []).
Proof. reflexivity. Qed.

Lemma exact_pass_same_uuid (f c : Finding) al ic kw rest acc :
  uuid c = uuid f ->
  exact_pass uuid changelog_of f al ic kw (c :: rest) acc
  = exact_pass uuid changelog_of f al ic kw rest acc.
Proof. intros H. simpl. unfold py_eq. by rewrite bool_decide_eq_true_2. Qed.

Lemma exact_pass_other_uuid (f c : Finding) al ic kw rest acc :
  uuid c <> uuid f ->
  exact_pass uuid changelog_of f al ic kw (c :: rest) acc
  = py_bind (py_lift (strict_call c f ic kw)) (fun identical : bool =>
      if identical then
        py_bind (can_be_synced changelog_of c al) (fun sync : bool =>
          let '(e, a, m) := acc in
          py_ret (Some (if sync then (e ++ [c], a, m) else (e, a, m ++ [c]))))
      else exact_pass uuid changelog_of f al ic kw rest acc).
Proof. intros H. simpl. unfold py_eq. by rewrite bool_decide_eq_false_2. Qed.

Lemma exact_pass_skip (f : Finding) al ic kw (pre rest : list Finding) acc :
  (forall x, x ∈ pre -> uuid x = uuid f \/ strict_call x f ic kw = Ok false) ->
  exact_pass uuid changelog_of f al ic kw (pre ++ rest) acc
  = exact_pass uuid changelog_of f al ic kw rest acc.
Proof.
  induction pre as [| x pre IH]; intros Hpre; [reflexivity |].
  assert (IH' : exact_pass uuid changelog_of f al ic kw (pre ++ rest) acc
                = exact_pass uuid changelog_of f al ic kw rest acc).
  { apply IH. intros y Hy. apply Hpre. by right. }
  rewrite <- app_comm_cons.
  destruct (decide (uuid x = uuid f)) as [E | N].
  - by rewrite exact_pass_same_uuid.
  - rewrite exact_pass_other_uuid by assumption.
    destruct (Hpre x) as [E | Hfalse]; [by left | done |].
    by rewrite Hfalse, py_bind_lift_ok.
Qed.

Lemma exact_pass_outcome_some (f : Finding) al ic kw (l : list Finding) e a m :
  outcome (exact_pass uuid changelog_of f al ic kw l ([], [], [])) = Ok (Some (e, a, m)) ->
  a = [] /\ exists c, c ∈ l /\ ((e = [c] /\ m = []) \/ (e = [] /\ m = [c])).
Proof.
  induction l as [| c l IH]; [discriminate |].
  destruct (decide (uuid c = uuid f)) as [E | N].
  - rewrite exact_pass_same_uuid by assumption. intros H.
    destruct (IH H) as (Ha & c' & Hc' & Hcase). split; [exact Ha |].
    exists c'. split; [by right | exact Hcase].
  - rewrite exact_pass_other_uuid by assumption.
    destruct (strict_call c f ic kw) as [[|] | ex].
    + rewrite py_bind_lift_ok, outcome_bind.
      destruct (can_be_synced_returns changelog_of c al) as [b Hb]. rewrite Hb.
      destruct b; simpl; intros H; injection H as <- <- <-;
        (split; [reflexivity |]); exists c; (split; [by left |]); auto.
    + rewrite py_bind_lift_ok. intros H.
      destruct (IH H) as (Ha & c' & Hc' & Hcase). split; [exact Ha |].
      exists c'. split; [by right | exact Hcase].
    + rewrite py_bind_lift_raise. discriminate.
Qed.

Lemma approx_pass_outcome (f : Finding) al ic kw (l : list Finding) e0 a0 m0 :
  exists a1 m1,
    outcome (approx_pass changelog_of f al ic kw l (e0, a0, m0))
    = Ok (e0, a0 ++ a1, m0 ++ m1)
    /\ forall c sync, c ∈ l -> almost_identical_to c f ic kw = true ->
         outcome (can_be_synced changelog_of c al) = Ok sync ->
         if sync : bool then c ∈ a1 else c ∈ m1.
Proof.
  revert a0 m0. induction l as [| c l IH]; intros a0 m0; simpl.
  - exists [], []. rewrite !app_nil_r. split; [reflexivity |].
    intros c sync Hc. by apply elem_of_nil in Hc.
  - destruct (almost_identical_to c f ic kw) eqn:Halmost.
    + rewrite outcome_bind.
      destruct (can_be_synced_returns changelog_of c al) as [b Hb]. rewrite Hb.
      destruct b.
      * destruct (IH (a0 ++ [c]) m0) as (a1 & m1 & Hout & Hin).
        exists (c :: a1), m1. rewrite Hout, <- app_assoc. split; [reflexivity |].
        intros c' sync Hc' Ha' Hs'. apply elem_of_cons in Hc' as [-> | Hc'].
        -- rewrite Hb in Hs'. injection Hs' as <-. by left.
        -- specialize (Hin c' sync Hc' Ha' Hs'). destruct sync; [by right | exact Hin].
      * destruct (IH a0 (m0 ++ [c])) as (a1 & m1 & Hout & Hin).
        exists a1, (c :: m1). rewrite Hout, <- app_assoc. split; [reflexivity |].
        intros c' sync Hc' Ha' Hs'. apply elem_of_cons in Hc' as [-> | Hc'].
        -- rewrite Hb in Hs'. injection Hs' as <-. by left.
        -- specialize (Hin c' sync Hc' Ha' Hs'). destruct sync; [exact Hin | by right].
    + destruct (IH a0 m0) as (a1 & m1 & Hout & Hin).
      exists a1, m1. split; [exact Hout |].
      intros c' sync Hc' Ha' Hs'. apply elem_of_cons in Hc' as [-> | Hc'].
      * congruence.
      * exact (Hin c' sync Hc' Ha' Hs').
Qed.

Lemma search_siblings_outcome (f : Finding) (pop : list Finding) al ic kw :
  outcome (search_siblings uuid changelog_of f pop al ic kw)
  = match outcome (exact_pass uuid changelog_of f al ic kw pop ([], [], [])) with
    | Ok (Some r) => Ok r
    | Ok None => outcome (approx_pass changelog_of f al ic kw pop ([], [], []))
    | Raise e => Raise e
    end.
Proof.
  unfold search_siblings. rewrite outcome_bind.
  by destruct (outcome (exact_pass uuid changelog_of f al ic kw pop ([], [], [])))
    as [[r |] | e].
Qed.

(** X24. The driver scans the candidates in order; at the first one that
    has another uuid and for which the strict test, as the driver calls it
    (with the keywords it was given), returns [True] after it returned
    [False] for the candidates of another uuid before, it puts that one
    candidate in [exact_matches] when it can be synced and in
    [match_but_modified] otherwise, and returns at once: the candidates
    that follow do not count and the only [changelog()] calls are those of
    the sync test of that candidate.  Hence the exact pass yields exactly
    one candidate when it yields a result, the result of the driver is then
    that of the exact pass, and [exact_matches] and [approx_matches] are
    never both non-empty. *)
Theorem search_siblings_first_exact (f : Finding) (pop : list Finding)
  (allowed_users : option (list string)) (ic : bool) (kw : Kwargs) :
  (forall pre c post,
     pop = pre ++ c :: post ->
     (forall x, x ∈ pre -> uuid x = uuid f \/ strict_call x f ic kw = Ok false) ->
     uuid c <> uuid f ->
     strict_call c f ic kw = Ok true ->
     exists sync : bool,
       outcome (can_be_synced changelog_of c allowed_users) = Ok sync
       /\ outcome (search_siblings uuid changelog_of f pop allowed_users ic kw)
          = Ok (if sync then ([c], [], []) else ([], [], [c]))
       /\ calls (search_siblings uuid changelog_of f pop allowed_users ic kw)
          = calls (can_be_synced changelog_of c allowed_users))
  /\ (forall e a m,
        outcome (exact_pass uuid changelog_of f allowed_users ic kw pop ([], [], []))
        = Ok (Some (e, a, m)) ->
        (a = [] /\ exists c, c ∈ pop /\ ((e = [c] /\ m = []) \/ (e = [] /\ m = [c])))
        /\ search_siblings uuid changelog_of f pop allowed_users ic kw
           = (Ok (e, a, m),
              calls (exact_pass uuid changelog_of f allowed_users ic kw pop ([], [], []))))
  /\ (forall e a m,
        outcome (search_siblings uuid changelog_of f pop allowed_users ic kw) = Ok (e, a, m) ->
        (length e <= 1)%nat /\ (e = [] \/ a = [])).
Proof.
  split; [| split].
  - intros pre c post -> Hpre Hc Hstrict.
    destruct (can_be_synced_returns changelog_of c allowed_users) as [sync Hsync].
    exists sync. split; [exact Hsync |].
    unfold search_siblings.
    rewrite exact_pass_skip by exact Hpre.
    rewrite exact_pass_other_uuid by exact Hc.
    rewrite Hstrict, py_bind_lift_ok.
    destruct (can_be_synced changelog_of c allowed_users) as [[b | ex] t] eqn:E;
      [| discriminate].
    simpl in Hsync. injection Hsync as ->. simpl.
    rewrite !app_nil_r. by destruct sync.
  - intros e a m H. split; [exact (exact_pass_outcome_some f _ _ _ _ _ _ _ H) |].
    unfold search_siblings.
    destruct (exact_pass uuid changelog_of f allowed_users ic kw pop ([], [], []))
      as [r t]. simpl in H. subst r. simpl. by rewrite app_nil_r.
  - intros e a m. rewrite search_siblings_outcome.
    destruct (outcome (exact_pass uuid changelog_of f allowed_users ic kw pop ([], [], [])))
      as [[[[e' a'] m'] |] | ex] eqn:E; [| | discriminate].
    + intros H. injection H as -> -> ->.
      apply exact_pass_outcome_some in E as (-> & c & _ & [[-> ->] | [-> ->]]);
        simpl; split; auto.
    + destruct (approx_pass_outcome f allowed_users ic kw pop [] [] []) as (a1 & m1 & Hout & _).
      rewrite Hout. intros H. injection H as <- <- <-. simpl. split; auto.
Qed.

(** C4.  With any keyword in [**kwargs], the driver raises [TypeError] as
    soon as it meets a candidate with another uuid: the keywords are passed
    on to [strictly_identical_to], which accepts none. *)
Theorem search_siblings_kwargs_raise (f : Finding) (pop : list Finding)
  (allowed_users : option (list string)) (ic : bool) (kw : Kwargs) :
  kw <> no_kwargs ->
  (exists c, c ∈ pop /\ uuid c <> uuid f) ->
  outcome (search_siblings uuid changelog_of f pop allowed_users ic kw) = Raise TypeError.
Proof.
  intros Hkw Hex. rewrite search_siblings_outcome.
  assert (E : outcome (exact_pass uuid changelog_of f allowed_users ic kw pop ([], [], []))
              = Raise TypeError); [| by rewrite E].
  induction pop as [| x pop IH]; [destruct Hex as (c & Hc & _); by apply elem_of_nil in Hc |].
  destruct (decide (uuid x = uuid f)) as [Ex | Nx].
  - rewrite exact_pass_same_uuid by assumption. apply IH.
    destruct Hex as (c & Hc & Hne). apply elem_of_cons in Hc as [-> | Hc]; [done | eauto].
  - rewrite exact_pass_other_uuid by assumption.
    unfold strict_call, call_without_kwargs. by rewrite decide_False.
Qed.

Lemma score_self (f : Finding) (ic : bool) (kw : Kwargs) : score f f ic kw = 9.
Proof. unfold score, py_eq. rewrite !bool_decide_eq_true_2 by reflexivity. reflexivity. Qed.

Lemma almost_identical_to_self (f : Finding) (ic : bool) (kw : Kwargs) :
  almost_identical_to f f ic kw = true.
Proof.
  unfold almost_identical_to. rewrite score_self.
  unfold py_eq. rewrite !bool_decide_eq_true_2 by reflexivity. reflexivity.
Qed.

(** The source finding is skipped by the exact pass only.  When it is
    itself in the population and the strict test, as the driver calls it,
    returns [False] for every candidate with another uuid, the approximate
    pass classifies it: it scores 9
    against itself, [exact_matches] is empty, and it is in [approx_matches]
    when it can be synced, in [match_but_modified] otherwise. *)
Theorem search_siblings_classifies_self (f : Finding) (pop : list Finding)
  (allowed_users : option (list string)) (ic : bool) (kw : Kwargs) :
  f ∈ pop ->
  (forall c, c ∈ pop -> uuid c <> uuid f -> strict_call c f ic kw = Ok false) ->
  score f f ic kw = 9
  /\ outcome (exact_pass uuid changelog_of f allowed_users ic kw pop ([], [], [])) = Ok None
  /\ exists (sync : bool) (a m : list Finding),
       outcome (can_be_synced changelog_of f allowed_users) = Ok sync
       /\ outcome (search_siblings uuid changelog_of f pop allowed_users ic kw) = Ok ([], a, m)
       /\ if sync then f ∈ a else f ∈ m.
Proof.
  intros Hin Hnone.
  assert (Hexact : exact_pass uuid changelog_of f allowed_users ic kw pop ([], [], [])
                   = py_ret None).
  { rewrite <- (app_nil_r pop). rewrite exact_pass_skip; [reflexivity |].
    intros x Hx. destruct (decide (uuid x = uuid f)); [by left | right; auto]. }
  split; [apply score_self |]. split; [by rewrite Hexact |].
  destruct (can_be_synced_returns changelog_of f allowed_users) as [sync Hsync].
  destruct (approx_pass_outcome f allowed_users ic kw pop [] [] []) as (a & m & Hout & Hcls).
  exists sync, a, m. split; [exact Hsync |]. split.
  - rewrite search_siblings_outcome, Hexact. exact Hout.
  - exact (Hcls f sync Hin (almost_identical_to_self f ic kw) Hsync).
Qed.

End DriverFacts.

(** ** The scenarios of the specification and instances of the theorems *)

(** Lines that differ by one and components that differ: 7 points, an
    approximate match. *)
Example scenario_score_7 :
  score (scenario_finding "AY-1" 10 (Some "proj:dirA"))
    (scenario_finding "AY-2" 11 (Some "proj:dirB")) false no_kwargs = 7
  /\ almost_identical_to (scenario_finding "AY-1" 10 (Some "proj:dirA"))
       (scenario_finding "AY-2" 11 (Some "proj:dirB")) false no_kwargs = true.
Proof. split; reflexivity. Qed.

(** The same pair with the line and the component waived: 9 points. *)
Example scenario_score_9 :
  score (scenario_finding "AY-1" 10 (Some "proj:dirA"))
    (scenario_finding "AY-2" 11 (Some "proj:dirB")) true only_ignore_line = 9
  /\ almost_identical_to (scenario_finding "AY-1" 10 (Some "proj:dirA"))
       (scenario_finding "AY-2" 11 (Some "proj:dirB")) true only_ignore_line = true.
Proof. split; reflexivity. Qed.

Lemma almost_identical_to_scoring_witness :
  almost_identical_to (scenario_finding "AY-1" 10 (Some "proj:dirA"))
    (scenario_finding "AY-2" 11 (Some "proj:dirB")) false no_kwargs = true.
Proof.
  apply (almost_identical_to_scoring (scenario_finding "AY-1" 10 (Some "proj:dirA"))
           (scenario_finding "AY-2" 11 (Some "proj:dirB")) false no_kwargs);
    [reflexivity | reflexivity | vm_compute; discriminate].
Defined.

Lemma score_monotone_witness :
  score (scenario_finding "AY-1" 10 (Some "proj:dirA"))
    (scenario_finding "AY-2" 11 (Some "proj:dirB")) false no_kwargs
  <= score (scenario_finding "AY-1" 10 (Some "proj:dirA"))
       (scenario_finding "AY-2" 11 (Some "proj:dirB")) true only_ignore_line
  /\ (almost_identical_to (scenario_finding "AY-1" 10 (Some "proj:dirA"))
        (scenario_finding "AY-2" 11 (Some "proj:dirB")) false no_kwargs = true ->
      almost_identical_to (scenario_finding "AY-1" 10 (Some "proj:dirA"))
        (scenario_finding "AY-2" 11 (Some "proj:dirB")) true only_ignore_line = true).
Proof.
  apply (score_monotone (scenario_finding "AY-1" 10 (Some "proj:dirA"))
           (scenario_finding "AY-2" 11 (Some "proj:dirB"))).
  intros w. destruct w; simpl; intros H; solve [reflexivity | discriminate H].
Defined.

Lemma can_be_synced_policy_witness :
  outcome (can_be_synced no_history source_finding (Some ["sync-bot"])) = Ok true
  /\ outcome (can_be_synced edited_by_bob source_finding None) = Ok false.
Proof.
  split.
  - destruct (can_be_synced_policy no_history source_finding) as [_ H].
    destruct (H ["sync-bot"]) as (b & Hb & _ & Hempty).
    rewrite Hb. f_equal. apply Hempty. reflexivity.
  - destruct (can_be_synced_policy edited_by_bob source_finding) as [(b & Hb & Hiff) _].
    rewrite Hb. f_equal. destruct b; [| reflexivity].
    destruct Hiff as [Hiff _]. specialize (Hiff eq_refl). vm_compute in Hiff. discriminate Hiff.
Defined.

Lemma has_changelog_cutoff_witness :
  has_changelog edited_by_bob source_finding (Some 1700000001) = (Ok false, [])
  /\ outcome (has_changelog edited_by_bob source_finding (Some 1700000000))
     = Ok (bool_decide (edited_by_bob source_finding ≠ ∅))
  /\ calls (has_changelog edited_by_bob source_finding (Some 1700000000))
     = [ChangelogCall source_finding].
Proof.
  split.
  - apply (has_changelog_cutoff edited_by_bob source_finding 1700000001). simpl. lia.
  - apply (has_changelog_cutoff edited_by_bob source_finding 1700000000). reflexivity.
Defined.

Lemma search_siblings_first_exact_witness :
  outcome (search_siblings key_at_endpoint no_history source_finding
             [source_finding; twin_finding; unrelated_finding] None false no_kwargs)
  = Ok ([twin_finding], [], []).
Proof.
  destruct (search_siblings_first_exact key_at_endpoint no_history source_finding
              [source_finding; twin_finding; unrelated_finding] None false no_kwargs)
    as [H _].
  destruct (H [source_finding] twin_finding [unrelated_finding] eq_refl)
    as (sync & Hsync & Hout & _).
  - intros x Hx. apply list_elem_of_singleton in Hx. subst x. left. reflexivity.
  - vm_compute. discriminate.
  - reflexivity.
  - rewrite Hout. vm_compute in Hsync. injection Hsync as <-. reflexivity.
Defined.

Lemma search_siblings_kwargs_raise_witness :
  outcome (search_siblings key_at_endpoint no_history source_finding
             [source_finding; twin_finding] None false only_ignore_line)
  = Raise TypeError.
Proof.
  apply search_siblings_kwargs_raise.
  - discriminate.
  - exists twin_finding. split.
    + right. left.
    + vm_compute. discriminate.
Defined.

Lemma search_siblings_classifies_self_witness :
  exists a m,
    outcome (search_siblings key_at_endpoint no_history source_finding
               [unrelated_finding; source_finding] None false no_kwargs)
    = Ok ([], a, m)
    /\ source_finding ∈ a.
Proof.
  destruct (search_siblings_classifies_self key_at_endpoint no_history source_finding
              [unrelated_finding; source_finding] None false no_kwargs)
    as (_ & _ & sync & a & m & Hsync & Hout & Hin).
  - right. left.
  - intros c Hc Hne. apply elem_of_cons in Hc as [-> | Hc]; [reflexivity |].
    apply list_elem_of_singleton in Hc. subst c. contradiction.
  - exists a, m. split; [exact Hout |].
    vm_compute in Hsync. injection Hsync as <-. exact Hin.
Defined.

(** ** Export to JSON *)

Ltac map_ne :=
  repeat first [rewrite lookup_insert_ne by done | rewrite lookup_delete_ne by done].

Ltac not_private :=
  match goal with
  | |- context [bool_decide (?k ∈ _JSON_FIELDS_PRIVATE)] =>
      change (bool_decide (k ∈ _JSON_FIELDS_PRIVATE)) with false
  end.

Lemma default_some {A : Type} (d x : A) : default d (Some x) = x.
Proof. reflexivity. Qed.

Lemma foldl_delete_lookup {A : Type} (drop : string * A -> bool) (l : list (string * A))
  (acc : gmap string A) (k : string) :
  foldl (fun acc kv => if drop kv then delete kv.1 acc else acc) acc l !! k
  = if existsb (fun kv => bool_decide (kv.1 = k) && drop kv) l then None else acc !! k.
Proof.
  revert acc. induction l as [| x l IH]; intros acc; [reflexivity |].
  simpl. rewrite IH.
  destruct (existsb (fun kv => bool_decide (kv.1 = k) && drop kv) l);
    [by rewrite orb_true_r |].
  rewrite orb_false_r. destruct (drop x); [| by rewrite andb_false_r].
  rewrite andb_true_r. destruct (decide (x.1 = k)) as [E | N].
  - rewrite bool_decide_eq_true_2 by assumption. by rewrite E, lookup_delete_eq.
  - rewrite bool_decide_eq_false_2 by assumption. by rewrite lookup_delete_ne.
Qed.

Lemma foldl_delete_items {A : Type} (drop : string * A -> bool) (m : gmap string A)
  (k : string) :
  foldl (fun acc kv => if drop kv then delete kv.1 acc else acc) m (map_to_list m) !! k
  = match m !! k with
    | Some v => if drop (k, v) then None else Some v
    | None => None
    end.
Proof.
  rewrite foldl_delete_lookup.
  destruct (existsb (fun kv => bool_decide (kv.1 = k) && drop kv) (map_to_list m)) eqn:E.
  - apply existsb_exists in E as ([k' v'] & Hin & Hx).
    apply andb_true_iff in Hx as [Hk Hd]. apply bool_decide_eq_true in Hk. simpl in Hk.
    subst k'. apply list_elem_of_In, elem_of_map_to_list in Hin.
    by rewrite Hin, Hd.
  - destruct (m !! k) as [v |] eqn:Hv; [| reflexivity].
    destruct (drop (k, v)) eqn:Hd; [| reflexivity].
    exfalso. apply not_true_iff_false in E. apply E.
    apply existsb_exists. exists (k, v). split.
    + by apply list_elem_of_In, elem_of_map_to_list.
    + simpl. by rewrite bool_decide_eq_true_2, Hd.
Qed.

Lemma drop_empty_lookup (data : gmap string Attr) (k : string) :
  drop_empty data !! k = exported (data !! k).
Proof. unfold drop_empty. by rewrite (foldl_delete_items (fun kv => none_or_empty kv.2)). Qed.

Lemma drop_private_lookup (data : gmap string Attr) (k : string) :
  drop_private data !! k
  = if bool_decide (k ∈ _JSON_FIELDS_PRIVATE) then None else data !! k.
Proof.
  unfold drop_private. generalize _JSON_FIELDS_PRIVATE as l. intros l. revert data.
  induction l as [| x l IH]; intros data; cbn [foldl].
  - case_bool_decide as H; [by apply elem_of_nil in H | reflexivity].
  - rewrite IH. destruct (decide (k = x)) as [-> | Hne].
    + rewrite lookup_delete_eq.
      rewrite (bool_decide_eq_true_2 (x ∈ x :: l)) by (by left).
      by destruct (bool_decide (x ∈ l)).
    + rewrite lookup_delete_ne by done. destruct (decide (k ∈ l)) as [Hin | Hout].
      * rewrite !bool_decide_eq_true_2; [reflexivity | by right | assumption].
      * rewrite !bool_decide_eq_false_2; [reflexivity | | assumption].
        intros Hk. apply elem_of_cons in Hk as [-> | Hk]; done.
Qed.

Lemma vars_modelled (self : Finding) (others : gmap string Attr) :
  vars self others !! "status" = Some (attr_of_str (status self))
  /\ vars self others !! "resolution" = Some (attr_of_str (resolution self)).
Proof. unfold vars. split; apply lookup_union_Some_l; reflexivity. Qed.

Lemma convert_status_spec (data : gmap string Attr) (st : Attr) :
  data !! "status" = Some st ->
  convert_status status_conversion data = Ok (<["status" := converted_attr st]> data).
Proof.
  intros Hst. unfold status_conversion. simpl. rewrite Hst.
  unfold attr_is_str, converted_attr, converted.
  destruct st as [[| n | s] | t];
    try (rewrite !bool_decide_eq_false_2 by discriminate; by rewrite insert_id).
  destruct (decide (s = "WONTFIX")) as [-> | N1]; [reflexivity |].
  rewrite (bool_decide_eq_false_2 (AVal (PStr s) = _)) by congruence.
  rewrite (bool_decide_eq_false_2 (s = _)) by assumption.
  destruct (decide (s = "REOPENED")) as [-> | N2]; [reflexivity |].
  rewrite (bool_decide_eq_false_2 (AVal (PStr s) = _)) by congruence.
  rewrite (bool_decide_eq_false_2 (s = _)) by assumption.
  destruct (decide (s = "REMOVED")) as [-> | N3]; [reflexivity |].
  rewrite (bool_decide_eq_false_2 (AVal (PStr s) = _)) by congruence.
  rewrite (bool_decide_eq_false_2 (s = _)) by assumption.
  by rewrite insert_id.
Qed.

Lemma remapped_fields (self : Finding) (others : gmap string Attr) :
  remap_fields (vars self others)
  = <["comments" := default (AVal PNone) (others !! "_comments")]>
      (delete "_comments"
         (<["pullRequest" := default (AVal PNone) (others !! "pull_request")]>
            (delete "pull_request" (vars self others)))).
Proof.
  unfold remap_fields, _JSON_FIELDS_REMAPPED. cbn [foldl fst snd]. map_ne.
  unfold vars. by rewrite !lookup_union_r by reflexivity.
Qed.

Lemma before_conversion_status (self : Finding) (others : gmap string Attr)
  (c u : string) :
  before_conversion self others c u !! "status"
  = Some (if truthy (attr_of_str (resolution self))
          then attr_of_str (resolution self)
          else attr_of_str (status self)).
Proof.
  destruct (vars_modelled self others) as [Hs Hr].
  unfold before_conversion, resolution_as_status. rewrite remapped_fields.
  map_ne. rewrite Hr, !default_some.
  destruct (truthy (attr_of_str (resolution self))).
  - by rewrite lookup_insert_eq.
  - map_ne. exact Hs.
Qed.

Lemma to_json_lookup (self : Finding) (others : gmap string Attr) (c u : string) :
  exists out,
    to_json self others c u = Ok out
    /\ forall k,
         out !! k
         = exported
             (if bool_decide (k ∈ _JSON_FIELDS_PRIVATE) then None
              else <["status" := converted_attr
                                   (if truthy (attr_of_str (resolution self))
                                    then attr_of_str (resolution self)
                                    else attr_of_str (status self))]>
                     (before_conversion self others c u) !! k).
Proof.
  change (to_json self others c u)
    with (res_bind (convert_status status_conversion (before_conversion self others c u))
            (fun data => Ok (drop_empty (drop_private data)))).
  rewrite (convert_status_spec _ _ (before_conversion_status self others c u)).
  eexists. split; [reflexivity |].
  intros k. by rewrite drop_empty_lookup, drop_private_lookup.
Qed.

Lemma exported_some (x : option Attr) (v : Attr) :
  exported x = Some v -> x = Some v /\ none_or_empty v = false.
Proof.
  destruct x as [w |]; simpl; [| discriminate].
  destruct (none_or_empty w) eqn:E; [discriminate |]. intros H. by injection H as <-.
Qed.

(** X18. [to_json] returns a dict for every finding, and no value of that dict
    is [None] or the empty string. *)
Theorem to_json_no_empty_value (self : Finding) (others : gmap string Attr)
  (creationDate updateDate : string) :
  exists out,
    to_json self others creationDate updateDate = Ok out
    /\ forall k v, out !! k = Some v -> v <> AVal PNone /\ v <> AVal (PStr "").
Proof.
  destruct (to_json_lookup self others creationDate updateDate) as (out & Hout & Hk).
  exists out. split; [exact Hout |].
  intros k v Hv. rewrite Hk in Hv. apply exported_some in Hv as [_ Hv].
  unfold none_or_empty in Hv. apply orb_false_iff in Hv as [H1 H2].
  split; intros ->; by rewrite bool_decide_eq_true_2 in *.
Qed.

Lemma before_conversion_other (self : Finding) (others : gmap string Attr)
  (c u : string) (k : string) :
  k <> "status" -> k <> "resolution" ->
  before_conversion self others c u !! k
  = <["updateDate" := AVal (PStr u)]>
      (<["creationDate" := AVal (PStr c)]>
         (<["file" := attr_of_str (file self)]>
            (<["effort" := AVal (PStr "")]> (remap_fields (vars self others))))) !! k.
Proof.
  intros H1 H2. unfold before_conversion, resolution_as_status.
  match goal with |- context [if ?b then _ else _] => destruct b end; [| reflexivity].
  by rewrite lookup_insert_ne, lookup_delete_ne by done.
Qed.

(** X19. The dict [to_json] returns holds none of the private fields, neither
    of the two renamed attributes, no [effort] and no [resolution]. *)
Theorem to_json_absent_keys (self : Finding) (others : gmap string Attr)
  (creationDate updateDate : string) :
  exists out,
    to_json self others creationDate updateDate = Ok out
    /\ forall k,
         k ∈ _JSON_FIELDS_PRIVATE ++ ["pull_request"; "_comments"; "effort"; "resolution"] ->
         out !! k = None.
Proof.
  destruct (to_json_lookup self others creationDate updateDate) as (out & Hout & Hk).
  exists out. split; [exact Hout |].
  intros k Hin. rewrite Hk. apply elem_of_app in Hin as [Hpriv | Hin].
  { by rewrite bool_decide_eq_true_2. }
  assert (Hcases : k = "pull_request" \/ k = "_comments" \/ k = "effort" \/ k = "resolution").
  { repeat (apply elem_of_cons in Hin as [-> | Hin]; [tauto |]). by apply elem_of_nil in Hin. }
  destruct Hcases as [-> | [-> | [-> | ->]]];
    not_private; rewrite lookup_insert_ne by done.
  - rewrite before_conversion_other by done. rewrite remapped_fields. map_ne.
    by rewrite lookup_delete_eq.
  - rewrite before_conversion_other by done. rewrite remapped_fields. map_ne.
    by rewrite lookup_delete_eq.
  - rewrite before_conversion_other by done. map_ne. by rewrite lookup_insert_eq.
  - destruct (vars_modelled self others) as [_ Hr].
    unfold before_conversion, resolution_as_status. rewrite remapped_fields.
    map_ne. rewrite Hr, !default_some.
    destruct (resolution self) as [r |]; cbn [attr_of_str truthy].
    + destruct (decide (r = "")) as [-> | Hne].
      * rewrite bool_decide_eq_true_2 by reflexivity. cbn [negb].
        map_ne. rewrite Hr. reflexivity.
      * rewrite (bool_decide_eq_false_2 _ Hne). cbn [negb].
        by rewrite lookup_insert_ne, lookup_delete_eq by done.
    + map_ne. rewrite Hr. reflexivity.
Qed.

Lemma converted_never_raw (s : string) :
  converted s ∉ ["WONTFIX"; "REOPENED"; "REMOVED"].
Proof.
  unfold converted. intros Hin.
  repeat (apply elem_of_cons in Hin as [Hin | Hin];
          [repeat case_bool_decide; congruence |]).
  by apply elem_of_nil in Hin.
Qed.

Lemma converted_attr_exported_status (self : Finding) :
  converted_attr (if truthy (attr_of_str (resolution self))
                  then attr_of_str (resolution self)
                  else attr_of_str (status self))
  = attr_of_str (exported_status self).
Proof.
  unfold exported_status.
  destruct (resolution self) as [r |]; simpl.
  - case_bool_decide; simpl; [by destruct (status self) | reflexivity].
  - by destruct (status self).
Qed.

(** X20. The [status] entry of the dict [to_json] returns is the resolution of
    the finding when it has a non-empty one and its status otherwise, with
    [WONTFIX], [REOPENED] and [REMOVED] replaced by [ACCEPTED], [OPEN] and
    [FIXED]; the entry is left out when that value is [None] or empty.
    None of the three replaced values is ever exported. *)
Theorem to_json_status (self : Finding) (others : gmap string Attr)
  (creationDate updateDate : string) :
  exists out,
    to_json self others creationDate updateDate = Ok out
    /\ out !! "status" = exported (Some (attr_of_str (exported_status self)))
    /\ forall s, out !! "status" = Some (AVal (PStr s)) ->
                 s ∉ ["WONTFIX"; "REOPENED"; "REMOVED"].
Proof.
  destruct (to_json_lookup self others creationDate updateDate) as (out & Hout & Hk).
  exists out. split; [exact Hout |].
  assert (Hst : out !! "status" = exported (Some (attr_of_str (exported_status self)))).
  { rewrite Hk. not_private.
    by rewrite lookup_insert_eq, converted_attr_exported_status. }
  split; [exact Hst |].
  intros s Hs. rewrite Hst in Hs. apply exported_some in Hs as [Hs _].
  injection Hs as Hs. unfold exported_status in Hs.
  destruct (match resolution self with
            | Some r => if bool_decide (r = "") then status self else Some r
            | None => status self
            end) as [s0 |]; simpl in Hs; [| discriminate].
  injection Hs as <-. apply converted_never_raw.
Qed.

(** X21. Every attribute that [to_json] does not set, rename or remove by name
    is exported as it is, unless it is [None] or empty; [pull_request] and
    [_comments] are exported as [pullRequest] and [comments], and [file]
    is the derived file path. *)
Theorem to_json_other_attributes (self : Finding) (others : gmap string Attr)
  (creationDate updateDate : string) :
  exists out,
    to_json self others creationDate updateDate = Ok out
    /\ (forall k, k ∉ reserved_keys -> out !! k = exported (vars self others !! k))
    /\ out !! "pullRequest" = exported (Some (default (AVal PNone) (others !! "pull_request")))
    /\ out !! "comments" = exported (Some (default (AVal PNone) (others !! "_comments")))
    /\ out !! "file" = exported (Some (attr_of_str (file self))).
Proof.
  destruct (to_json_lookup self others creationDate updateDate) as (out & Hout & Hk).
  exists out. split; [exact Hout |]. repeat split.
  - intros k Hres. rewrite Hk. unfold reserved_keys in Hres.
    apply not_elem_of_app in Hres as [Hres Hpriv].
    rewrite (bool_decide_eq_false_2 _ Hpriv).
    repeat (apply not_elem_of_cons in Hres as [? Hres]).
    rewrite lookup_insert_ne by done.
    rewrite before_conversion_other by done. rewrite remapped_fields.
    by map_ne.
  - rewrite Hk. not_private.
    rewrite lookup_insert_ne by done.
    rewrite before_conversion_other by done. rewrite remapped_fields.
    map_ne. by rewrite lookup_insert_eq.
  - rewrite Hk. not_private.
    rewrite lookup_insert_ne by done.
    rewrite before_conversion_other by done. rewrite remapped_fields.
    map_ne. by rewrite lookup_insert_eq.
  - rewrite Hk. not_private.
    rewrite lookup_insert_ne by done.
    rewrite before_conversion_other by done.
    map_ne. by rewrite lookup_insert_eq.
Qed.

(** ** The post-search filter *)

Section PostSearchFilterFacts.

Context {F : Type}.
Variable rule_language : F -> string.
Variable creation_date : F -> Z.
Variable string_to_date : string -> Z.

Lemma passes_b_spec (filters : Filters) (finding : F) :
  passes_b rule_language creation_date string_to_date filters finding = true
  <-> passes rule_language creation_date string_to_date filters finding.
Proof.
  unfold passes_b, passes. rewrite !andb_true_iff. split.
  - intros [[Hl Ha] Hb]. repeat split.
    + intros languages E Hne. rewrite E in Hl.
      apply negb_true_iff, andb_false_iff in Hl as [Hl | Hl].
      * apply Z.ltb_ge in Hl. destruct languages; [done | simpl in Hl; lia].
      * apply negb_false_iff in Hl. by apply bool_decide_eq_true in Hl.
    + intros d E. rewrite E in Ha. apply negb_true_iff, Z.ltb_ge in Ha. exact Ha.
    + intros d E. rewrite E in Hb. apply negb_true_iff in Hb.
      rewrite Z.gtb_ltb in Hb. apply Z.ltb_ge in Hb. exact Hb.
  - intros (Hl & Ha & Hb). repeat split.
    + destruct (f_languages filters) as [languages |]; [| reflexivity].
      apply negb_true_iff, andb_false_iff.
      destruct languages as [| l ls]; [by left |]. right.
      apply negb_false_iff, bool_decide_eq_true. by apply Hl.
    + destruct (f_createdAfter filters) as [d |]; [| reflexivity].
      apply negb_true_iff, Z.ltb_ge. by apply Ha.
    + destruct (f_createdBefore filters) as [d |]; [| reflexivity].
      apply negb_true_iff. rewrite Z.gtb_ltb. apply Z.ltb_ge. by apply Hb.
Qed.

Lemma filter_step_spec (filters : Filters) (acc : gmap string F) (k : string) (f : F) :
  filter_step rule_language creation_date string_to_date filters acc (k, f)
  = if passes_b rule_language creation_date string_to_date filters f
    then acc else delete k acc.
Proof.
  unfold filter_step, passes_b.
  destruct (f_languages filters) as [languages |];
    destruct (f_createdAfter filters) as [d1 |];
    destruct (f_createdBefore filters) as [d2 |];
    repeat match goal with
           | |- context [if ?b then _ else _] => destruct b eqn:?
           end;
    simpl in *; rewrite ?delete_delete_eq; try reflexivity; try congruence.
Qed.

Lemma post_search_filter_lookup (findings : gmap string F) (filters : Filters) (k : string) :
  post_search_filter rule_language creation_date string_to_date findings filters !! k
  = match findings !! k with
    | Some f =>
        if passes_b rule_language creation_date string_to_date filters f
        then Some f else None
    | None => None
    end.
Proof.
  unfold post_search_filter.
  assert (E : forall l acc,
             foldl (filter_step rule_language creation_date string_to_date filters) acc l
             = foldl (fun acc kv =>
                        if negb (passes_b rule_language creation_date string_to_date
                                   filters kv.2)
                        then delete kv.1 acc else acc) acc l).
  { induction l as [| [k' f'] l IH]; intros acc; [reflexivity |].
    cbn [foldl]. rewrite filter_step_spec, IH. cbn [fst snd].
    by destruct (passes_b rule_language creation_date string_to_date filters f'). }
  rewrite E.
  rewrite (foldl_delete_items
             (fun kv => negb (passes_b rule_language creation_date string_to_date
                                filters kv.2))).
  destruct (findings !! k) as [f |]; [| reflexivity]. simpl.
  by destruct (passes_b rule_language creation_date string_to_date filters f).
Qed.

(** X22. [post_search_filter] keeps exactly the entries of [findings] whose
    finding passes every filter given: a language of a non-empty
    [languages] list, a creation date not before [createdAfter] and not
    after [createdBefore].  It adds no entry and changes none. *)
Theorem post_search_filter_keeps (findings : gmap string F) (filters : Filters)
  (k : string) (f : F) :
  post_search_filter rule_language creation_date string_to_date findings filters !! k
  = Some f
  <-> findings !! k = Some f
      /\ passes rule_language creation_date string_to_date filters f.
Proof.
  rewrite post_search_filter_lookup, <- passes_b_spec.
  destruct (findings !! k) as [f' |]; [| by split; [| intros []]].
  destruct (passes_b rule_language creation_date string_to_date filters f') eqn:E.
  - split; [intros H; injection H as <-; auto | intros [H _]; exact H].
  - split; [discriminate | intros [H H']; injection H as <-; congruence].
Qed.

(** X23. Filtering is idempotent, the order of two filterings does not matter,
    and without any filter, or with an empty [languages] list alone, the
    findings come back unchanged. *)
Theorem post_search_filter_compose (findings : gmap string F) (filters filters' : Filters) :
  post_search_filter rule_language creation_date string_to_date
    (post_search_filter rule_language creation_date string_to_date findings filters) filters
  = post_search_filter rule_language creation_date string_to_date findings filters
  /\ post_search_filter rule_language creation_date string_to_date
       (post_search_filter rule_language creation_date string_to_date findings filters)
       filters'
     = post_search_filter rule_language creation_date string_to_date
         (post_search_filter rule_language creation_date string_to_date findings filters')
         filters
  /\ post_search_filter rule_language creation_date string_to_date findings
       (mkFilters None None None) = findings
  /\ post_search_filter rule_language creation_date string_to_date findings
       (mkFilters (Some []) None None) = findings.
Proof.
  repeat split; apply map_eq; intros k; rewrite !post_search_filter_lookup.
  - destruct (findings !! k) as [f |]; [| reflexivity].
    destruct (passes_b rule_language creation_date string_to_date filters f) eqn:E;
      [by rewrite E | reflexivity].
  - destruct (findings !! k) as [f |]; [| reflexivity].
    destruct (passes_b rule_language creation_date string_to_date filters f) eqn:E;
      destruct (passes_b rule_language creation_date string_to_date filters' f) eqn:E';
      by rewrite ?E, ?E'.
  - by destruct (findings !! k).
  - by destruct (findings !! k).
Qed.

End PostSearchFilterFacts.

(** ** More on the matchers *)

Lemma py_eq_sym {A : Type} `{EqDecision A} (x y : A) : py_eq x y = py_eq y x.
Proof. unfold py_eq. apply bool_decide_ext. split; congruence. Qed.

Lemma py_eq_true {A : Type} `{EqDecision A} (x y : A) : py_eq x y = true <-> x = y.
Proof. unfold py_eq. apply bool_decide_eq_true. Qed.

Lemma py_eq_false {A : Type} `{EqDecision A} (x y : A) : py_eq x y = false <-> x <> y.
Proof. unfold py_eq. apply bool_decide_eq_false. Qed.

(** X5. The approximate matcher is symmetric: the score and the verdict of a
    pair do not depend on which finding is the candidate. *)
Theorem almost_identical_to_sym (a b : Finding) (ic : bool) (kw : Kwargs) :
  score a b ic kw = score b a ic kw
  /\ almost_identical_to a b ic kw = almost_identical_to b a ic kw.
Proof.
  assert (Hs : score a b ic kw = score b a ic kw).
  { unfold score.
    rewrite (py_eq_sym (message a)), (py_eq_sym (file a)), (py_eq_sym (line a)),
      (py_eq_sym (component a)), (py_eq_sym (author a)), (py_eq_sym (type a)),
      (py_eq_sym (severity a)).
    reflexivity. }
  split; [exact Hs |].
  unfold almost_identical_to.
  by rewrite Hs, (py_eq_sym (rule a)), (py_eq_sym (hash a)).
Qed.

Lemma prelim_check_sym (a b : Finding) (r : string) :
  rule a = Some r -> rule b = Some r -> prelim_check a b = prelim_check b a.
Proof.
  intros Ha Hb. unfold prelim_check. rewrite Ha, Hb.
  destruct (PyStr.contains r "python:S6540"); [| reflexivity].
  destruct (start_offset a) as [c1 |], (start_offset b) as [c2 |]; try reflexivity.
  by rewrite py_eq_sym.
Qed.

Lemma prelim_check_returns (a b : Finding) (r : string) :
  rule a = Some r -> exists p, prelim_check a b = Ok p.
Proof.
  intros Ha. unfold prelim_check. rewrite Ha.
  destruct (PyStr.contains r "python:S6540"); [| by eexists].
  destruct (start_offset a), (start_offset b); by eexists.
Qed.

(** X6. The strict matcher is symmetric on two findings that both have a
    rule.  When only one of two findings with different keys has a rule,
    the test raises [TypeError] if the finding without a rule is the
    receiver and returns [False] the other way round. *)
Theorem strictly_identical_to_sym (a b : Finding) (ic : bool) :
  (is_Some (rule a) -> is_Some (rule b) ->
     strictly_identical_to a b ic = strictly_identical_to b a ic)
  /\ (rule a = None -> is_Some (rule b) -> key a <> key b ->
        strictly_identical_to a b ic = Raise TypeError
        /\ strictly_identical_to b a ic = Ok false).
Proof.
  split.
  - intros [ra Ha] [rb Hb]. unfold strictly_identical_to.
    rewrite (py_eq_sym (key b)).
    destruct (py_eq (key a) (key b)); [reflexivity |].
    rewrite (py_eq_sym (rule b)), (py_eq_sym (hash b)), (py_eq_sym (message b)),
      (py_eq_sym (file b)), (py_eq_sym (component b)).
    destruct (decide (ra = rb)) as [-> | Hne].
    + by rewrite (prelim_check_sym a b rb).
    + assert (E : py_eq (rule a) (rule b) = false) by (apply py_eq_false; congruence).
      rewrite E.
      destruct (prelim_check_returns a b ra Ha) as [p ->].
      destruct (prelim_check_returns b a rb Hb) as [q ->].
      reflexivity.
  - intros Ha [rb Hb] Hk. unfold strictly_identical_to.
    rewrite (py_eq_sym (key b)).
    assert (E : py_eq (key a) (key b) = false) by (by apply py_eq_false).
    rewrite E. split.
    + unfold prelim_check. by rewrite Ha.
    + destruct (prelim_check_returns b a rb Hb) as [q ->]. simpl.
      assert (E' : py_eq (rule b) (rule a) = false) by (apply py_eq_false; congruence).
      by rewrite E'.
Qed.

Lemma strictly_identical_to_sym_witness :
  strictly_identical_to source_finding twin_finding false
  = strictly_identical_to twin_finding source_finding false
  /\ strictly_identical_to (python_finding "AY-1" None (Some 4)) twin_finding false
     = Raise TypeError
  /\ strictly_identical_to twin_finding (python_finding "AY-1" None (Some 4)) false
     = Ok false.
Proof.
  split.
  - apply (proj1 (strictly_identical_to_sym source_finding twin_finding false));
      by eexists.
  - apply (proj2 (strictly_identical_to_sym (python_finding "AY-1" None (Some 4))
                    twin_finding false));
      [reflexivity | by eexists | discriminate].
Defined.

(** X7. With every waiver set, the approximate matcher only compares the rule
    and the hash: the file path, the one dimension without a waiver, can
    no longer bring the score under 7. *)
Theorem almost_identical_all_waived (a b : Finding) :
  almost_identical_to a b true all_waivers
  = py_eq (rule a) (rule b) && py_eq (hash a) (hash b).
Proof.
  unfold almost_identical_to.
  assert (H : (7 <=? score a b true all_waivers) = true).
  { apply Z.leb_le. rewrite score_is_table. unfold score_table, points, all_waivers, kwargs_get.
    cbn [ignore_message ignore_line ignore_author ignore_type ignore_severity default].
    rewrite !orb_true_r. destruct (py_eq (file a) (file b) || false); lia. }
  rewrite H. by destruct (py_eq (rule a) (rule b)), (py_eq (hash a) (hash b)).
Qed.

(** X8. Two findings whose file paths differ are an approximate match exactly
    when the rule and the hash agree and each of the six other dimensions
    is equal or waived; and two findings whose file paths and messages
    both differ are never one unless the message is waived. *)
Theorem almost_identical_other_file (a b : Finding) (ic : bool) (kw : Kwargs) :
  file a <> file b ->
  (almost_identical_to a b ic kw = true
   <-> rule a = rule b /\ hash a = hash b
       /\ forall w, dimension_ok w a b ic kw = true)
  /\ (message a <> message b -> kwargs_get (ignore_message kw) = false ->
      almost_identical_to a b ic kw = false).
Proof.
  intros Hfile.
  assert (Ef : py_eq (file a) (file b) = false) by (by apply py_eq_false).
  assert (Hscore :
    score a b ic kw
    = (if dimension_ok W_message a b ic kw then 2 else 0)
      + (if dimension_ok W_line a b ic kw then 1 else 0)
      + (if dimension_ok W_component a b ic kw then 1 else 0)
      + (if dimension_ok W_author a b ic kw then 1 else 0)
      + (if dimension_ok W_type a b ic kw then 1 else 0)
      + (if dimension_ok W_severity a b ic kw then 1 else 0)).
  { rewrite score_is_table. unfold score_table, points, dimension_ok, waived.
    rewrite Ef. cbn [orb]. lia. }
  assert (Hgate : almost_identical_to a b ic kw
                  = py_eq (rule a) (rule b) && py_eq (hash a) (hash b)
                    && (7 <=? score a b ic kw)).
  { unfold almost_identical_to.
    by destruct (py_eq (rule a) (rule b)), (py_eq (hash a) (hash b)). }
  rewrite Hgate, Hscore. clear Hgate Hscore.
  split.
  - rewrite !andb_true_iff, !py_eq_true, Z.leb_le. split.
    + intros [[Hr Hh] H]. split; [exact Hr |]. split; [exact Hh |].
      intros w. destruct w;
        destruct (dimension_ok W_message a b ic kw), (dimension_ok W_line a b ic kw),
          (dimension_ok W_component a b ic kw), (dimension_ok W_author a b ic kw),
          (dimension_ok W_type a b ic kw), (dimension_ok W_severity a b ic kw);
        first [reflexivity | lia].
    + intros (Hr & Hh & Hall). split; [by split |]. rewrite !Hall. lia.
  - intros Hm Hig.
    assert (Em : dimension_ok W_message a b ic kw = false).
    { unfold dimension_ok, waived. rewrite Hig.
      by rewrite (proj2 (py_eq_false (message a) (message b)) Hm). }
    rewrite Em. apply andb_false_iff. right. apply Z.leb_gt.
    destruct (dimension_ok W_line a b ic kw), (dimension_ok W_component a b ic kw),
      (dimension_ok W_author a b ic kw), (dimension_ok W_type a b ic kw),
      (dimension_ok W_severity a b ic kw); lia.
Qed.

(** ** More on the history and the sync policy *)

Section HistoryMore.

Variable changelog_of : Finding -> gmap string Changelog.t.

Lemma can_be_synced_none (f : Finding) :
  outcome (can_be_synced changelog_of f None)
  = Ok (bool_decide (changelog_of f = ∅)).
Proof.
  assert (E : outcome (can_be_synced changelog_of f None)
              = Ok (negb (0 <? Z.of_nat (size (changelog_of f))))) by reflexivity.
  rewrite E. f_equal.
  destruct (decide (changelog_of f = ∅)) as [H | H].
  - rewrite H, map_size_empty. by rewrite bool_decide_eq_true_2.
  - rewrite bool_decide_eq_false_2 by assumption.
    apply negb_false_iff, Z.ltb_lt. apply map_size_non_empty_iff in H. lia.
Qed.

Lemma can_be_synced_some (f : Finding) (l : list string) (b : bool) :
  outcome (can_be_synced changelog_of f (Some l)) = Ok b ->
  (b = true <-> forall k c, changelog_of f !! k = Some c -> Changelog.author c ∈ l).
Proof.
  assert (E : outcome (can_be_synced changelog_of f (Some l))
              = Ok (all_in_user_list
                      (elements (list_to_set
                         (Changelog.author <$> (map_to_list (changelog_of f)).*2)
                         : gset string)) l)) by reflexivity.
  rewrite E. intros H. injection H as <-.
  rewrite all_in_user_list_spec. split.
  - intros H k c Hkc. apply H, elem_of_elements, elem_of_modifiers. eauto.
  - intros H u Hu. apply elem_of_elements, elem_of_modifiers in Hu as (k & c & Hkc & <-).
    eauto.
Qed.

(** X9. Without allowlist and with an empty allowlist [can_be_synced] gives
    the same verdict: the finding can be synced exactly when it has no
    change event. *)
Theorem can_be_synced_none_is_empty_list (f : Finding) :
  outcome (can_be_synced changelog_of f None)
  = outcome (can_be_synced changelog_of f (Some []))
  /\ outcome (can_be_synced changelog_of f (Some []))
     = Ok (bool_decide (changelog_of f = ∅)).
Proof.
  assert (H : outcome (can_be_synced changelog_of f (Some []))
              = Ok (bool_decide (changelog_of f = ∅))).
  { destruct (can_be_synced_returns changelog_of f (Some [])) as [b Hb].
    rewrite Hb. f_equal. pose proof (can_be_synced_some f [] b Hb) as Hiff.
    destruct (decide (changelog_of f = ∅)) as [E | N].
    - rewrite bool_decide_eq_true_2 by assumption. apply Hiff.
      intros k c Hkc. rewrite E in Hkc. by rewrite lookup_empty in Hkc.
    - rewrite bool_decide_eq_false_2 by assumption.
      destruct b; [| reflexivity]. exfalso.
      apply map_choose in N as (k & c & Hkc).
      destruct Hiff as [Hiff _]. specialize (Hiff eq_refl k c Hkc).
      by apply elem_of_nil in Hiff.
  }
  split; [| exact H]. by rewrite H, can_be_synced_none.
Qed.

(** X10. A longer allowlist never withdraws a positive verdict, and a finding
    that can be synced without allowlist can be synced with any. *)
Theorem can_be_synced_allowlist_mono (f : Finding) (l l' : list string) :
  (l ⊆ l' ->
   outcome (can_be_synced changelog_of f (Some l)) = Ok true ->
   outcome (can_be_synced changelog_of f (Some l')) = Ok true)
  /\ (outcome (can_be_synced changelog_of f None) = Ok true ->
      outcome (can_be_synced changelog_of f (Some l)) = Ok true).
Proof.
  split.
  - intros Hsub H.
    destruct (can_be_synced_returns changelog_of f (Some l')) as [b Hb].
    rewrite Hb. f_equal. apply (can_be_synced_some f l' b Hb).
    intros k c Hkc. apply Hsub.
    by apply (proj1 (can_be_synced_some f l true H) eq_refl k c).
  - rewrite can_be_synced_none. intros H. injection H as H.
    apply bool_decide_eq_true in H.
    destruct (can_be_synced_returns changelog_of f (Some l)) as [b Hb].
    rewrite Hb. f_equal. apply (can_be_synced_some f l b Hb).
    intros k c Hkc. rewrite H in Hkc. by rewrite lookup_empty in Hkc.
Qed.

Lemma has_changelog_outcome (f : Finding) (added_after : option Z) :
  outcome (has_changelog changelog_of f added_after)
  = Ok (match added_after with
        | Some a => negb (a >? modification_date f)
        | None => true
        end
        && bool_decide (changelog_of f ≠ ∅)).
Proof.
  unfold has_changelog.
  destruct added_after as [a |].
  - destruct (a >? modification_date f); [reflexivity |].
    fold (has_changelog changelog_of f None). by rewrite has_changelog_no_cutoff.
  - fold (has_changelog changelog_of f None). by rewrite has_changelog_no_cutoff.
Qed.

(** X11. A cutoff can only hide a changelog: if [has_changelog] returns
    [True] with a cutoff, it returns [True] with every earlier cutoff and
    without cutoff. *)
Theorem has_changelog_earlier_cutoff (f : Finding) (a a' : Z) :
  (a <= a' ->
   outcome (has_changelog changelog_of f (Some a')) = Ok true ->
   outcome (has_changelog changelog_of f (Some a)) = Ok true)
  /\ (outcome (has_changelog changelog_of f (Some a)) = Ok true ->
      outcome (has_changelog changelog_of f None) = Ok true).
Proof.
  rewrite !has_changelog_outcome. split.
  - intros Hle H. injection H as H. apply andb_true_iff in H as [H1 H2].
    apply negb_true_iff in H1. rewrite Z.gtb_ltb in H1. apply Z.ltb_ge in H1.
    f_equal. apply andb_true_iff. split; [| exact H2].
    apply negb_true_iff. rewrite Z.gtb_ltb. apply Z.ltb_ge. lia.
  - intros H. injection H as H. apply andb_true_iff in H as [_ H2]. by rewrite H2.
Qed.

Lemma can_be_synced_calls (f : Finding) (user_list : option (list string)) :
  calls (can_be_synced changelog_of f user_list) = [ChangelogCall f; ChangelogCall f].
Proof. by destruct user_list. Qed.

End HistoryMore.

Lemma can_be_synced_allowlist_mono_witness :
  outcome (can_be_synced edited_by_bob source_finding (Some ["bob"; "sync-bot"])) = Ok true.
Proof.
  apply (proj1 (can_be_synced_allowlist_mono edited_by_bob source_finding ["bob"]
                  ["bob"; "sync-bot"])).
  - unfold subseteq, list_subseteq. intros x Hx.
    apply list_elem_of_singleton in Hx. subst x. by left.
  - vm_compute. reflexivity.
Defined.

Lemma has_changelog_earlier_cutoff_witness :
  outcome (has_changelog edited_by_bob source_finding (Some 1600000000)) = Ok true.
Proof.
  apply (proj1 (has_changelog_earlier_cutoff edited_by_bob source_finding
                  1600000000 1700000000)).
  - lia.
  - vm_compute. reflexivity.
Defined.

(** ** More on loading *)

Section LoadingMore.

Variable int_of_str : string -> option Z.

Lemma load_common_ok (self : FindingOf (option RawRecord)) (jsondata : RawRecord)
  (f : Finding) :
  _load_common int_of_str self jsondata = Ok f ->
  is_Some (j_status jsondata)
  /\ line f = normalize_line int_of_str (raw_line jsondata)
  /\ _json f = match _json self with
               | None => jsondata
               | Some old => dict_update old jsondata
               end
  /\ rule f = match j_rule jsondata with
              | Some r => Some r
              | None => j_ruleReference jsondata
              end
  /\ message f = j_message jsondata /\ author f = j_author jsondata
  /\ type f = j_type jsondata /\ severity f = j_severity jsondata
  /\ hash f = hash self /\ component f = component self /\ key f = key self.
Proof.
  unfold _load_common. destruct (j_status jsondata) as [st |]; [| discriminate].
  intros H. injection H as <-. cbn. repeat split. by eexists.
Qed.

(** X12. After a load the [line] attribute is never the string ["null"]; it is
    a string only when the raw value is that string and [int] rejects it,
    and an integer only when the raw value is that integer or a string
    that [int] reads as it. *)
Theorem loaded_line_shape (self : FindingOf (option RawRecord))
  (jsondata : RawRecord) (f : Finding) :
  _load_common int_of_str self jsondata = Ok f ->
  line f <> PStr "null"
  /\ (forall s, line f = PStr s -> raw_line jsondata = PStr s /\ int_of_str s = None)
  /\ (forall n, line f = PInt n ->
        raw_line jsondata = PInt n
        \/ exists s, raw_line jsondata = PStr s /\ int_of_str s = Some n).
Proof.
  intros H. apply load_common_ok in H as (_ & Hl & _). rewrite Hl. clear Hl.
  unfold normalize_line, py_eq.
  destruct (raw_line jsondata) as [| n | s].
  - rewrite bool_decide_eq_false_2 by discriminate.
    repeat split; [discriminate | discriminate | discriminate | discriminate].
  - rewrite bool_decide_eq_false_2 by discriminate.
    repeat split; try discriminate. intros m Hm. left. exact Hm.
  - destruct (decide (s = "null")) as [-> | Hne].
    + rewrite bool_decide_eq_true_2 by reflexivity.
      repeat split; discriminate.
    + rewrite bool_decide_eq_false_2 by congruence.
      destruct (int_of_str s) as [n |] eqn:E.
      * repeat split; try discriminate.
        intros m Hm. right. exists s. split; [reflexivity | congruence].
      * split; [congruence |]. split; [| discriminate].
        intros s' Hs'. injection Hs' as <-. by split.
Qed.

Lemma dict_update_diag (d : RawRecord) : dict_update d d = d.
Proof.
  destruct d. unfold dict_update. cbn. f_equal;
    match goal with |- match ?x with _ => _ end = _ => by destruct x end.
Qed.

Lemma dict_update_absorb (a d : RawRecord) :
  dict_update (dict_update a d) d = dict_update a d.
Proof.
  destruct a, d. unfold dict_update. cbn. f_equal;
    match goal with |- match ?x with _ => _ end = _ => by destruct x end.
Qed.

(** X13. Loading is idempotent: running [_load_common] again with the same
    raw record on the object it produced leaves every attribute, [_json]
    included, as it is. *)
Theorem load_common_idempotent (self : FindingOf (option RawRecord))
  (jsondata : RawRecord) (f : Finding) :
  _load_common int_of_str self jsondata = Ok f ->
  _load_common int_of_str (as_object f) jsondata = Ok f.
Proof.
  unfold _load_common. destruct (j_status jsondata) as [st |]; [| discriminate].
  intros H. injection H as <-. cbn. f_equal.
  destruct (_json self) as [old |].
  - by rewrite dict_update_absorb.
  - by rewrite dict_update_diag.
Qed.

(** X14. A second load only adds to [_json]: with a record that has no
    [component] key the file path still comes from the component of the
    first record, whatever [path] the new record gives, while the
    attributes are those of the new record alone (a message the new record
    lacks becomes [None]).  With a [component] key in the new record the
    file path is the one of any finding with that component. *)
Theorem reload_file (f : Finding) (jsondata : RawRecord) (st : string) :
  j_status jsondata = Some st ->
  exists f' : Finding,
    _load_common int_of_str (as_object f) jsondata = Ok f'
    /\ message f' = j_message jsondata
    /\ (j_component jsondata = None -> is_Some (j_component (_json f)) ->
        file f' = file f)
    /\ (forall g : Finding, is_Some (j_component jsondata) ->
        j_component (_json g) = j_component jsondata -> file f' = file g).
Proof.
  intros Hst. unfold _load_common. rewrite Hst. eexists. split; [reflexivity |].
  split; [reflexivity |]. unfold file. cbn. split.
  - intros Hnone [c Hc]. rewrite Hnone, Hc. reflexivity.
  - intros g [comp Hcomp] Hg. rewrite Hg, Hcomp. reflexivity.
Qed.

(** X15. Two objects loaded from the same raw record are an approximate match
    with the full score of 9, whatever their keys and the waivers; they
    are strictly identical when the record has a rule, and the strict test
    raises [TypeError] when it has none and the keys differ. *)
Theorem loaded_twice_match (k1 k2 e1 e2 : string) (t1 t2 : Z) (jsondata : RawRecord)
  (f1 f2 : Finding) (ic : bool) (kw : Kwargs) :
  _load_common int_of_str (init k1 e1 t1) jsondata = Ok f1 ->
  _load_common int_of_str (init k2 e2 t2) jsondata = Ok f2 ->
  score f1 f2 ic kw = 9
  /\ almost_identical_to f1 f2 ic kw = true
  /\ (is_Some (rule f1) -> strictly_identical_to f1 f2 ic = Ok true)
  /\ (rule f1 = None -> k1 <> k2 -> strictly_identical_to f1 f2 ic = Raise TypeError).
Proof.
  intros H1 H2.
  apply load_common_ok in H1 as (_ & Hl1 & Hj1 & Hr1 & Hm1 & Ha1 & Ht1 & Hs1 & Hh1 & Hc1 & Hk1).
  apply load_common_ok in H2 as (_ & Hl2 & Hj2 & Hr2 & Hm2 & Ha2 & Ht2 & Hs2 & Hh2 & Hc2 & Hk2).
  cbn in Hj1, Hj2, Hh1, Hh2, Hc1, Hc2, Hk1, Hk2.
  assert (Ef : file f1 = file f2) by (unfold file; by rewrite Hj1, Hj2).
  assert (Eo : start_offset f1 = start_offset f2)
    by (unfold start_offset; by rewrite Hj1, Hj2).
  assert (Hscore : score f1 f2 ic kw = 9).
  { unfold score. rewrite Hm1, Hm2, Ef, Hl1, Hl2, Hc1, Hc2, Ha1, Ha2, Ht1, Ht2, Hs1, Hs2.
    unfold py_eq. rewrite !bool_decide_eq_true_2 by reflexivity. reflexivity. }
  split; [exact Hscore |]. split.
  - unfold almost_identical_to. rewrite Hscore, Hr1, Hr2, Hh1, Hh2.
    unfold py_eq. by rewrite !bool_decide_eq_true_2 by reflexivity.
  - split.
    + intros [r Hr]. unfold strictly_identical_to.
      destruct (py_eq (key f1) (key f2)); [reflexivity |].
      unfold prelim_check. rewrite Hr, Eo.
      assert (Ep : (if PyStr.contains r "python:S6540"
                    then match start_offset f2 with
                         | Some col1 =>
                             match start_offset f2 with
                             | Some col2 => Ok (py_eq col1 col2)
                             | None => Ok true
                             end
                         | None => Ok true
                         end
                    else Ok true) = Ok true).
      { destruct (PyStr.contains r "python:S6540"); [| reflexivity].
        destruct (start_offset f2); [| reflexivity].
        unfold py_eq. by rewrite bool_decide_eq_true_2. }
      rewrite Ep. cbn [res_bind].
      rewrite <- Hr, Ef, Hr1, Hr2, Hh1, Hh2, Hm1, Hm2, Hc1, Hc2.
      unfold py_eq. by rewrite !bool_decide_eq_true_2 by reflexivity.
    + intros Hr Hk. unfold strictly_identical_to, prelim_check.
      rewrite Hr. unfold py_eq. rewrite bool_decide_eq_false_2 by congruence.
      reflexivity.
Qed.

End LoadingMore.

(** ** More on the driver *)

Section DriverMore.

Variable uuid : Finding -> string.
Variable changelog_of : Finding -> gmap string Changelog.t.

Lemma py_bind_ret {A B : Type} (a : A) (k : A -> Py B) : py_bind (py_ret a) k = k a.
Proof. unfold py_bind, py_ret. by destruct (k a). Qed.

Lemma sync_verdict_spec (c : Finding) (al : option (list string)) :
  outcome (can_be_synced changelog_of c al) = Ok (sync_verdict changelog_of c al).
Proof.
  unfold sync_verdict. destruct (can_be_synced_returns changelog_of c al) as [b Hb].
  by rewrite Hb.
Qed.

Lemma approx_pass_lists (f : Finding) al ic kw (l : list Finding) e0 a0 m0 :
  outcome (approx_pass changelog_of f al ic kw l (e0, a0, m0))
  = Ok (e0,
        a0 ++ List.filter (fun c => almost_identical_to c f ic kw
                                    && sync_verdict changelog_of c al) l,
        m0 ++ List.filter (fun c => almost_identical_to c f ic kw
                                    && negb (sync_verdict changelog_of c al)) l).
Proof.
  revert a0 m0. induction l as [| c l IH]; intros a0 m0; cbn [approx_pass List.filter].
  - by rewrite !app_nil_r.
  - destruct (almost_identical_to c f ic kw); cbn [andb]; [| apply IH].
    rewrite outcome_bind, sync_verdict_spec.
    destruct (sync_verdict changelog_of c al); cbn [negb]; rewrite IH;
      by rewrite <- app_assoc.
Qed.

Lemma approx_pass_calls (f : Finding) al ic kw (l : list Finding) acc :
  calls (approx_pass changelog_of f al ic kw l acc)
  = List.flat_map (fun c => [ChangelogCall c; ChangelogCall c])
      (List.filter (fun c => almost_identical_to c f ic kw) l).
Proof.
  revert acc. induction l as [| c l IH]; intros [[e0 a0] m0];
    cbn [approx_pass List.filter]; [reflexivity |].
  destruct (almost_identical_to c f ic kw); [| apply IH].
  rewrite calls_bind, sync_verdict_spec, can_be_synced_calls.
  cbn [List.flat_map]. destruct (sync_verdict changelog_of c al); by rewrite IH.
Qed.

Lemma exact_pass_none (f : Finding) al ic kw (pop : list Finding) acc :
  (forall c, c ∈ pop -> uuid c = uuid f \/ strict_call c f ic kw = Ok false) ->
  exact_pass uuid changelog_of f al ic kw pop acc = py_ret None.
Proof.
  intros H. rewrite <- (app_nil_r pop). by rewrite exact_pass_skip.
Qed.

(** X1. When the strict test rejects every candidate with another uuid, the
    driver returns the candidates the approximate matcher accepts, in the
    order of the population and with their repetitions: those that can be
    synced in [approx_matches], the others in [match_but_modified], and
    nothing in [exact_matches].  It calls [changelog()] twice on each of
    these candidates, in that order, and on no other finding. *)
Theorem search_siblings_approximate (f : Finding) (pop : list Finding)
  (al : option (list string)) (ic : bool) (kw : Kwargs) :
  (forall c, c ∈ pop -> uuid c = uuid f \/ strict_call c f ic kw = Ok false) ->
  search_siblings uuid changelog_of f pop al ic kw
  = (Ok ([],
         List.filter (fun c => almost_identical_to c f ic kw
                               && sync_verdict changelog_of c al) pop,
         List.filter (fun c => almost_identical_to c f ic kw
                               && negb (sync_verdict changelog_of c al)) pop),
     List.flat_map (fun c => [ChangelogCall c; ChangelogCall c])
       (List.filter (fun c => almost_identical_to c f ic kw) pop)).
Proof.
  intros H. unfold search_siblings. rewrite (exact_pass_none f al ic kw pop _ H).
  rewrite py_bind_ret.
  pose proof (approx_pass_lists f al ic kw pop [] [] []) as Hout.
  pose proof (approx_pass_calls f al ic kw pop ([], [], [])) as Hcalls.
  destruct (approx_pass changelog_of f al ic kw pop ([], [], [])) as [r t].
  unfold outcome, calls in *. cbn [fst snd] in *. by rewrite Hout, Hcalls.
Qed.

(** X2. Every finding the driver returns, in any of the three lists, is a
    candidate of the population. *)
Theorem search_siblings_within_population (f : Finding) (pop : list Finding)
  (al : option (list string)) (ic : bool) (kw : Kwargs) (e a m : list Finding) :
  outcome (search_siblings uuid changelog_of f pop al ic kw) = Ok (e, a, m) ->
  forall x, x ∈ e ++ a ++ m -> x ∈ pop.
Proof.
  rewrite search_siblings_outcome.
  destruct (outcome (exact_pass uuid changelog_of f al ic kw pop ([], [], [])))
    as [[[[e' a'] m'] |] | ex] eqn:E; [| | discriminate].
  - intros H. injection H as -> -> ->.
    apply exact_pass_outcome_some in E as (-> & c & Hc & [[-> ->] | [-> ->]]);
      intros x Hx; cbn in Hx; apply list_elem_of_singleton in Hx; by subst x.
  - rewrite approx_pass_lists. intros H. injection H as <- <- <-.
    intros x Hx. cbn [app] in Hx.
    apply elem_of_app in Hx as [Hx | Hx];
      apply list_elem_of_In, filter_In in Hx as [Hx _]; by apply list_elem_of_In.
Qed.

Lemma exact_pass_calls (f : Finding) al ic kw (l : list Finding) acc (ev : Event) :
  ev ∈ calls (exact_pass uuid changelog_of f al ic kw l acc) ->
  exists c, ev = ChangelogCall c /\ c ∈ l /\ uuid c <> uuid f
            /\ strict_call c f ic kw = Ok true.
Proof.
  induction l as [| c l IH]; [intros H; by apply elem_of_nil in H |].
  destruct (decide (uuid c = uuid f)) as [E | N].
  - rewrite exact_pass_same_uuid by assumption. intros H.
    destruct (IH H) as (c' & -> & Hc' & Hrest). exists c'. split; [reflexivity |].
    split; [by right | exact Hrest].
  - rewrite exact_pass_other_uuid by assumption.
    destruct (strict_call c f ic kw) as [[|] | ex] eqn:Es.
    + rewrite py_bind_lift_ok, calls_bind, sync_verdict_spec, can_be_synced_calls.
      destruct acc as [[e0 a0] m0]. cbn [calls py_ret snd]. rewrite app_nil_r.
      intros H. exists c.
      split; [| split; [by left | by split]].
      apply elem_of_cons in H as [-> | H]; [reflexivity |].
      by apply list_elem_of_singleton in H.
    + rewrite py_bind_lift_ok. intros H.
      destruct (IH H) as (c' & -> & Hc' & Hrest). exists c'. split; [reflexivity |].
      split; [by right | exact Hrest].
    + rewrite py_bind_lift_raise. intros H. by apply elem_of_nil in H.
Qed.

(** X3. The driver calls [changelog()] only on candidates of the population
    that a matcher has accepted: a candidate with another uuid that the
    strict test accepts, or a candidate that the approximate test
    accepts.  It never fetches the history of a finding that matches
    nothing. *)
Theorem search_siblings_calls_on_matches (f : Finding) (pop : list Finding)
  (al : option (list string)) (ic : bool) (kw : Kwargs) (ev : Event) :
  ev ∈ calls (search_siblings uuid changelog_of f pop al ic kw) ->
  exists c, ev = ChangelogCall c /\ c ∈ pop
            /\ ((uuid c <> uuid f /\ strict_call c f ic kw = Ok true)
                \/ almost_identical_to c f ic kw = true).
Proof.
  unfold search_siblings. rewrite calls_bind.
  assert (Hexact : ev ∈ calls (exact_pass uuid changelog_of f al ic kw pop ([], [], [])) ->
                   exists c, ev = ChangelogCall c /\ c ∈ pop
                             /\ ((uuid c <> uuid f /\ strict_call c f ic kw = Ok true)
                                 \/ almost_identical_to c f ic kw = true)).
  { intros H. apply exact_pass_calls in H as (c & -> & Hc & Hrest).
    exists c. split; [reflexivity |]. split; [exact Hc | by left]. }
  destruct (outcome (exact_pass uuid changelog_of f al ic kw pop ([], [], [])))
    as [[r |] | ex]; [| | exact Hexact].
  - cbn [calls py_ret snd]. rewrite app_nil_r. exact Hexact.
  - intros H. apply elem_of_app in H as [H | H]; [by apply Hexact |].
    rewrite approx_pass_calls in H.
    apply list_elem_of_In, in_flat_map in H as (c & Hc & Hev).
    apply filter_In in Hc as [Hc Halmost].
    exists c. split.
    + destruct Hev as [<- | [<- | []]]; reflexivity.
    + split; [by apply list_elem_of_In | by right].
Qed.

Lemma strict_call_returns (c f : Finding) (ic : bool) :
  is_Some (rule c) -> exists b, strict_call c f ic no_kwargs = Ok b.
Proof.
  intros [r Hr]. unfold strict_call, call_without_kwargs.
  rewrite decide_True by reflexivity. unfold strictly_identical_to.
  destruct (py_eq (key c) (key f)); [by eexists |].
  destruct (prelim_check_returns c f r Hr) as [p ->]. by eexists.
Qed.

(** X4. The driver returns its three lists, without raising, whenever every
    candidate has the uuid of the source finding or, no keyword being
    given, has a rule. *)
Theorem search_siblings_returns (f : Finding) (pop : list Finding)
  (al : option (list string)) (ic : bool) (kw : Kwargs) :
  (forall c, c ∈ pop -> uuid c = uuid f \/ (kw = no_kwargs /\ is_Some (rule c))) ->
  exists r, outcome (search_siblings uuid changelog_of f pop al ic kw) = Ok r.
Proof.
  intros H. rewrite search_siblings_outcome.
  assert (Hexact : exists found,
             outcome (exact_pass uuid changelog_of f al ic kw pop ([], [], []))
             = Ok found).
  { induction pop as [| c pop IH]; [by eexists |].
    assert (Hpop : forall c', c' ∈ pop ->
                     uuid c' = uuid f \/ (kw = no_kwargs /\ is_Some (rule c')))
      by (intros c' Hc'; apply H; by right).
    destruct (decide (uuid c = uuid f)) as [E | N].
    - rewrite exact_pass_same_uuid by assumption. by apply IH.
    - rewrite exact_pass_other_uuid by assumption.
      destruct (H c) as [E | [-> Hr]]; [by left | done |].
      destruct (strict_call_returns c f ic Hr) as [b ->].
      rewrite py_bind_lift_ok. destruct b; [| by apply IH].
      rewrite outcome_bind, sync_verdict_spec. cbn [outcome py_ret fst]. by eexists. }
  destruct Hexact as [[r |] ->]; [by eexists |].
  rewrite approx_pass_lists. by eexists.
Qed.

End DriverMore.

(** ** More on the derived file path *)

Lemma contains_spec (m s : string) :
  PyStr.contains m s = true <-> exists p, occurs_after m s p.
Proof.
  induction s as [| c s IH].
  - cbn [PyStr.contains]. rewrite orb_false_r. split.
    + intros H. exists "". by apply occurs_after_empty.
    + intros [p Hp]. by apply occurs_after_nil in Hp as [_ Hp].
  - cbn [PyStr.contains]. rewrite orb_true_iff, IH. split.
    + intros [H | [p Hp]].
      * exists "". by apply occurs_after_empty.
      * exists (String c p). apply occurs_after_cons. right. eauto.
    + intros [p Hp]. apply occurs_after_cons in Hp as [[_ H] | (p' & _ & Hp')];
        [by left | right; eauto].
Qed.

Lemma append_split (p r x y : string) :
  p +:+ x = r +:+ y -> (String.length p <= String.length r)%nat ->
  exists r', r = p +:+ r' /\ x = r' +:+ y.
Proof.
  revert r. induction p as [| c p IH]; intros r H Hlen.
  - exists r. by str_simpl.
  - destruct r as [| d r]; [cbn in Hlen; lia |].
    str_simpl. injection H as -> H. cbn in Hlen.
    destruct (IH r H ltac:(lia)) as (r' & -> & ->). exists r'. by str_simpl.
Qed.

Lemma append_nil_r (s : string) : s +:+ "" = s.
Proof. induction s as [| c s IH]; str_simpl; [reflexivity | by rewrite IH]. Qed.

Lemma one_line_app (a b : string) :
  one_line (a +:+ b) = one_line a && one_line b.
Proof.
  induction a as [| c a IH]; str_simpl; [reflexivity |].
  cbn [one_line]. by rewrite IH, andb_assoc.
Qed.

(** A marker that occurs once more only inside itself or after: the
    search returns the text before that occurrence. *)
Lemma search_before_app (m p t : string) :
  one_line p = true ->
  PyStr.contains m (str_tail (m +:+ t)) = false ->
  PyStr.search_before m (p +:+ m +:+ t) = Some p.
Proof.
  intros Hline Hlater.
  pose proof (search_before_spec m (p +:+ m +:+ t)) as Hspec.
  assert (Hcut : first_line_cut m (p +:+ m +:+ t) p) by (split; [exact Hline | by exists t]).
  destruct (PyStr.search_before m (p +:+ m +:+ t)) as [r |];
    [| exfalso; exact (Hspec p Hcut)].
  destruct Hspec as [[Hr [t' Ht']] Hmax]. f_equal.
  specialize (Hmax p Hcut).
  destruct (append_split p r (m +:+ t) (m +:+ t') Ht' Hmax) as (r' & -> & Hr').
  destruct r' as [| c r']; [by rewrite append_nil_r |].
  exfalso. apply not_true_iff_false in Hlater. apply Hlater.
  apply contains_spec. exists r'. exists t'.
  rewrite Hr'. by str_simpl.
Qed.

Lemma search_before_absent (m s : string) :
  PyStr.contains m s = false -> PyStr.search_before m s = None.
Proof.
  intros H. pose proof (search_before_spec m s) as Hspec.
  destruct (PyStr.search_before m s) as [r |]; [| reflexivity].
  destruct Hspec as [[_ Hocc] _]. exfalso.
  apply not_true_iff_false in H. apply H, contains_spec. eauto.
Qed.

Lemma split_colon_nonempty (s : string) : PyStr.split_colon s <> [].
Proof. apply split_colon_join. Qed.

Lemma split_colon_free (s : string) :
  colon_free s = true -> PyStr.split_colon s = [s].
Proof.
  induction s as [| c s IH]; [reflexivity |].
  cbn [colon_free PyStr.split_colon]. intros H. apply andb_true_iff in H as [Hc Hs].
  apply negb_true_iff in Hc. rewrite Hc, (IH Hs). reflexivity.
Qed.

Lemma split_colon_app (p t : string) :
  PyStr.split_colon (p +:+ ":" +:+ t) = PyStr.split_colon p ++ PyStr.split_colon t.
Proof.
  induction p as [| c p IH]; str_simpl.
  - reflexivity.
  - cbn [PyStr.split_colon]. rewrite IH.
    destruct (Ascii.eqb c ":"%char); [reflexivity |].
    pose proof (split_colon_nonempty p) as Hne.
    destruct (PyStr.split_colon p) as [| h tl]; [done | reflexivity].
Qed.

Lemma last_segment_app (p t : string) :
  colon_free t = true -> PyStr.last_segment (p +:+ ":" +:+ t) = t.
Proof.
  intros H. unfold PyStr.last_segment.
  by rewrite split_colon_app, (split_colon_free t H), last_last.
Qed.

Lemma colon_free_contains (m s : string) :
  colon_free s = true -> colon_free m = false -> PyStr.contains m s = false.
Proof.
  intros Hs Hm. apply not_true_iff_false. intros H.
  apply contains_spec in H as (p & t & ->).
  assert (Happ : forall a b, colon_free (a +:+ b) = colon_free a && colon_free b).
  { intros a b. induction a as [| c a IH]; str_simpl; [reflexivity |].
    cbn [colon_free]. by rewrite IH, andb_assoc. }
  rewrite !Happ, Hm in Hs. cbn [andb] in Hs. by rewrite andb_false_r in Hs.
Qed.

Lemma count_colon_app (a b : string) :
  count_colon (a +:+ b) = (count_colon a + count_colon b)%nat.
Proof.
  induction a as [| c a IH]; str_simpl; [reflexivity |].
  cbn [count_colon]. rewrite IH. lia.
Qed.

Lemma colon_free_count (s : string) : colon_free s = true -> count_colon s = 0%nat.
Proof.
  induction s as [| c s IH]; [reflexivity |]. cbn [colon_free count_colon].
  intros H. apply andb_true_iff in H as [Hc Hs]. apply negb_true_iff in Hc.
  by rewrite Hc, (IH Hs).
Qed.

Lemma contains_count (m s : string) :
  (count_colon s < count_colon m)%nat -> PyStr.contains m s = false.
Proof.
  intros Hlt. apply not_true_iff_false. intros H.
  apply contains_spec in H as (p & t & ->). rewrite !count_colon_app in Hlt. lia.
Qed.

(** X16. The file path is recovered from the component identifier of a file on
    a branch, [project:path:BRANCH:name]: when the project key and the path
    hold no line feed, the path and the branch name hold no colon and
    [project:path] does not hold the pull request marker, [file] returns
    the path.  The same holds for [project:path:PULL_REQUEST:id] when the
    identifier does not hold the branch marker.  A component identifier
    without any colon is its own file path. *)
Theorem file_of_scoped_component (self : Finding) (project path name : string) :
  one_line project = true -> one_line path = true ->
  colon_free path = true -> colon_free name = true ->
  (j_component (_json self) = Some (scoped_component project path ":BRANCH:" name) ->
   PyStr.contains ":PULL_REQUEST:" (project +:+ ":" +:+ path) = false ->
   file self = Some path)
  /\ (j_component (_json self) = Some (scoped_component project path ":PULL_REQUEST:" name) ->
      PyStr.contains ":BRANCH:" (scoped_component project path ":PULL_REQUEST:" name) = false ->
      file self = Some path)
  /\ (j_component (_json self) = Some path -> file self = Some path).
Proof.
  intros Hproj Hpath Hfree Hname.
  assert (Hline : one_line (project +:+ ":" +:+ path) = true).
  { rewrite !one_line_app, Hproj, Hpath. reflexivity. }
  assert (Hassoc : forall m, scoped_component project path m name
                             = (project +:+ ":" +:+ path) +:+ m +:+ name).
  { intros m. unfold scoped_component. by rewrite !append_assoc. }
  pose proof (colon_free_count name Hname) as Hcount.
  split; [| split].
  - intros Hcomp Hpr. unfold file. rewrite Hcomp, Hassoc.
    rewrite (search_before_app ":BRANCH:" _ name Hline).
    + cbn [default from_option id]. rewrite (search_before_absent _ _ Hpr).
      cbn [default from_option id]. by rewrite last_segment_app.
    + apply contains_count. cbn [append str_tail].
      change (count_colon ("BRANCH:" +:+ name) < 2)%nat.
      rewrite count_colon_app, Hcount. cbn. lia.
  - intros Hcomp Hbr. unfold file. rewrite Hcomp.
    rewrite (search_before_absent _ _ Hbr). cbn [default from_option id].
    rewrite Hassoc.
    rewrite (search_before_app ":PULL_REQUEST:" _ name Hline).
    + cbn [default from_option id]. by rewrite last_segment_app.
    + apply contains_count. cbn [append str_tail].
      change (count_colon ("PULL_REQUEST:" +:+ name) < 2)%nat.
      rewrite count_colon_app, Hcount. cbn. lia.
  - intros Hcomp. unfold file. rewrite Hcomp.
    rewrite (search_before_absent ":BRANCH:" path)
      by (by apply colon_free_contains).
    cbn [default from_option id].
    rewrite (search_before_absent ":PULL_REQUEST:" path)
      by (by apply colon_free_contains).
    cbn [default from_option id]. unfold PyStr.last_segment.
    by rewrite (split_colon_free path Hfree).
Qed.

(** X17. The path [file] derives from a [component] key never holds a colon. *)
Theorem file_colon_free (self : Finding) (seg : string) :
  is_Some (j_component (_json self)) -> file self = Some seg -> colon_free seg = true.
Proof.
  intros [comp Hcomp]. unfold file. rewrite Hcomp. intros H. injection H as <-.
  apply last_segment_final.
Qed.

(** ** Instances of the further properties *)

Example to_json_wontfix :
  match to_json wontfix_finding sample_others "2023-11-14" "2023-11-15" with
  | Ok out =>
      (out !! "status", out !! "resolution", out !! "author", out !! "effort",
       out !! "pullRequest", out !! "pull_request", out !! "file", out !! "hash")
  | Raise _ => (None, None, None, None, None, None, None, None)
  end
  = (Some (AVal (PStr "ACCEPTED")), None, None, None,
     Some (AVal (PStr "12")), None, Some (AVal (PStr "src/A.java")), None).
Proof. vm_compute. reflexivity. Qed.

Example post_search_filter_sample :
  map_to_list
    (post_search_filter fst snd sample_date sample_findings
       (mkFilters (Some ["py"]) (Some "1650000000") None))
  = [("AY-1", ("py", 1700000000))].
Proof. vm_compute. reflexivity. Qed.

Lemma almost_identical_other_file_witness :
  almost_identical_to (finding_of_component "proj:src/a.py")
    (finding_of_component "proj:src/b.py") false no_kwargs = true.
Proof.
  apply (proj1 (almost_identical_other_file (finding_of_component "proj:src/a.py")
                  (finding_of_component "proj:src/b.py") false no_kwargs
                  ltac:(vm_compute; discriminate))).
  repeat split. intros w. destruct w; reflexivity.
Defined.

Lemma loaded_line_shape_witness :
  exists f : Finding,
    _load_common PyInt.of_str (init "AY-1" "https://sonar.example.org" 1700000000)
      (search_record (Some (PStr "null"))) = Ok f
    /\ line f <> PStr "null".
Proof.
  eexists. split; [reflexivity |].
  apply (loaded_line_shape PyInt.of_str
           (init "AY-1" "https://sonar.example.org" 1700000000)
           (search_record (Some (PStr "null"))) _ eq_refl).
Defined.

Lemma load_common_idempotent_witness :
  exists f : Finding,
    _load_common PyInt.of_str (init "AY-1" "https://sonar.example.org" 1700000000)
      (search_record (Some (PStr "12"))) = Ok f
    /\ _load_common PyInt.of_str (as_object f) (search_record (Some (PStr "12"))) = Ok f.
Proof.
  eexists. split; [reflexivity |].
  apply (load_common_idempotent PyInt.of_str
           (init "AY-1" "https://sonar.example.org" 1700000000)
           (search_record (Some (PStr "12"))) _ eq_refl).
Defined.

Lemma reload_file_witness :
  exists f' : Finding,
    _load_common PyInt.of_str (as_object source_finding) status_record = Ok f'
    /\ message f' = None
    /\ file f' = file source_finding.
Proof.
  destruct (reload_file PyInt.of_str source_finding status_record "CLOSED" eq_refl)
    as (f' & Hf' & Hm & Hkeep & _).
  exists f'. split; [exact Hf' |]. split; [exact Hm |].
  apply Hkeep; [reflexivity | by eexists].
Defined.

Lemma loaded_twice_match_witness :
  exists f1 f2 : Finding,
    _load_common PyInt.of_str (init "AY-1" "https://sonar.example.org" 1700000000)
      (search_record (Some (PInt 3))) = Ok f1
    /\ _load_common PyInt.of_str (init "AY-2" "https://sonar.example.org" 1700000500)
         (search_record (Some (PInt 3))) = Ok f2
    /\ almost_identical_to f1 f2 false no_kwargs = true
    /\ strictly_identical_to f1 f2 false = Ok true.
Proof.
  eexists _, _. split; [reflexivity |]. split; [reflexivity |].
  destruct (loaded_twice_match PyInt.of_str "AY-1" "AY-2" "https://sonar.example.org"
              "https://sonar.example.org" 1700000000 1700000500
              (search_record (Some (PInt 3))) _ _ false no_kwargs eq_refl eq_refl)
    as (_ & Halmost & Hstrict & _).
  split; [exact Halmost |]. apply Hstrict. by eexists.
Defined.

Lemma search_siblings_approximate_witness :
  outcome (search_siblings key_at_endpoint no_history source_finding
             [unrelated_finding; source_finding] None false no_kwargs)
  = Ok ([], [source_finding], []).
Proof.
  rewrite (search_siblings_approximate key_at_endpoint no_history source_finding
             [unrelated_finding; source_finding] None false no_kwargs).
  - vm_compute. reflexivity.
  - intros c Hc. apply elem_of_cons in Hc as [-> | Hc]; [right; reflexivity |].
    apply list_elem_of_singleton in Hc. subst c. left. reflexivity.
Defined.

Lemma search_siblings_within_population_witness :
  twin_finding ∈ [source_finding; twin_finding; unrelated_finding].
Proof.
  apply (search_siblings_within_population key_at_endpoint no_history source_finding
           [source_finding; twin_finding; unrelated_finding] None false no_kwargs
           [twin_finding] [] []).
  - vm_compute. reflexivity.
  - by left.
Defined.

Lemma search_siblings_calls_on_matches_witness :
  exists c, ChangelogCall twin_finding = ChangelogCall c
            /\ c ∈ [source_finding; twin_finding; unrelated_finding]
            /\ ((key_at_endpoint c <> key_at_endpoint source_finding
                 /\ strict_call c source_finding false no_kwargs = Ok true)
                \/ almost_identical_to c source_finding false no_kwargs = true).
Proof.
  apply (search_siblings_calls_on_matches key_at_endpoint no_history source_finding
           [source_finding; twin_finding; unrelated_finding] None false no_kwargs).
  assert (E : calls (search_siblings key_at_endpoint no_history source_finding
                       [source_finding; twin_finding; unrelated_finding] None false
                       no_kwargs)
              = [ChangelogCall twin_finding; ChangelogCall twin_finding])
    by (vm_compute; reflexivity).
  rewrite E. by left.
Defined.

Lemma search_siblings_returns_witness :
  exists r, outcome (search_siblings key_at_endpoint no_history source_finding
                       [source_finding; twin_finding; unrelated_finding] None false
                       no_kwargs) = Ok r.
Proof.
  apply search_siblings_returns.
  intros c Hc. right. split; [reflexivity |].
  repeat (apply elem_of_cons in Hc as [-> | Hc]; [by eexists |]).
  by apply elem_of_nil in Hc.
Defined.

Lemma file_of_scoped_component_witness :
  file branch_finding = Some "src/app.py".
Proof.
  apply (proj1 (file_of_scoped_component branch_finding "org:proj" "src/app.py"
                  "release-1.0" eq_refl eq_refl eq_refl eq_refl));
    reflexivity.
Defined.

Lemma file_colon_free_witness :
  colon_free "src/app.py" = true.
Proof.
  apply (file_colon_free branch_finding "src/app.py"); [by eexists | reflexivity].
Defined.

(** ** Where the driver and [file] leave their descriptions *)

(** C1. The first candidate that is strictly identical to the source
    finding is to be classified at once, whatever the options.  Here the
    second candidate has another uuid and is strictly identical to the
    source finding; without a keyword the driver returns it alone in
    [exact_matches].  With [ignore_line=True] the same call raises
    [TypeError] and returns no list: the keyword is passed on to
    [strictly_identical_to], which accepts none.  Without a keyword it
    raises [TypeError] as well when a candidate without a rule comes
    first: the strict test looks for that rule in a string. *)
Theorem search_siblings_exact_match_raises :
  key_at_endpoint twin_finding <> key_at_endpoint source_finding
  /\ strictly_identical_to twin_finding source_finding false = Ok true
  /\ outcome (search_siblings key_at_endpoint no_history source_finding
                [source_finding; twin_finding; unrelated_finding] None false no_kwargs)
     = Ok ([twin_finding], [], [])
  /\ outcome (search_siblings key_at_endpoint no_history source_finding
                [source_finding; twin_finding; unrelated_finding] None false
                only_ignore_line)
     = Raise TypeError
  /\ outcome (search_siblings key_at_endpoint no_history source_finding
                [ruleless_finding; twin_finding] None false no_kwargs)
     = Raise TypeError.
Proof.
  split; [vm_compute; discriminate |].
  repeat split; vm_compute; reflexivity.
Qed.

(** C10. The source finding, when it is in the population and no other
    candidate is strictly identical to it, is to be classified by the
    approximate pass.  Here the only other candidate has another rule;
    without a keyword the driver returns the source finding in
    [approx_matches].  With [ignore_line=True] the same call raises
    [TypeError] in the exact pass and the source finding is never
    classified; so it does without a keyword when the other candidate has
    no rule. *)
Theorem search_siblings_self_not_classified :
  source_finding ∈ [unrelated_finding; source_finding]
  /\ key_at_endpoint unrelated_finding <> key_at_endpoint source_finding
  /\ strictly_identical_to unrelated_finding source_finding false = Ok false
  /\ score source_finding source_finding false only_ignore_line = 9
  /\ outcome (search_siblings key_at_endpoint no_history source_finding
                [unrelated_finding; source_finding] None false no_kwargs)
     = Ok ([], [source_finding], [])
  /\ outcome (search_siblings key_at_endpoint no_history source_finding
                [unrelated_finding; source_finding] None false only_ignore_line)
     = Raise TypeError
  /\ outcome (search_siblings key_at_endpoint no_history source_finding
                [ruleless_finding; source_finding] None false no_kwargs)
     = Raise TypeError.
Proof.
  split; [right; left |].
  split; [vm_compute; discriminate |].
  repeat split; vm_compute; reflexivity.
Qed.

(** On one line the two ways of stripping agree: a marker that occurs in a
    string without a line feed occurs on its first line. *)
Lemma suffix_stripped_one_line (m s : string) :
  one_line s = true ->
  suffix_stripped m s (default s (PyStr.search_before m s))
  /\ one_line (default s (PyStr.search_before m s)) = true.
Proof.
  intros Hs. pose proof (search_before_spec m s) as H.
  destruct (PyStr.search_before m s) as [r |]; cbn [default].
  - destruct H as [[Hline Hocc] _]. split; [by left | exact Hline].
  - split; [| exact Hs]. right. split; [| reflexivity].
    intros p Hocc. apply (H p). split; [| exact Hocc].
    destruct Hocc as [t ->]. rewrite one_line_app in Hs.
    by apply andb_true_iff in Hs as [Hp _].
Qed.

(** For a component identifier without a line feed, [file] returns what
    the derivation of the specification asks for. *)
Lemma file_as_specified_on_one_line (self : Finding) :
  (forall comp, j_component (_json self) = Some comp -> one_line comp = true) ->
  file_as_specified self (file self).
Proof.
  intros Hline. unfold file_as_specified, file.
  destruct (j_component (_json self)) as [comp |]; [| by destruct (j_path (_json self))].
  destruct (suffix_stripped_one_line ":BRANCH:" comp (Hline comp eq_refl)) as [H1 Hc1].
  destruct (suffix_stripped_one_line ":PULL_REQUEST:" _ Hc1) as [H2 _].
  eexists _, _, _. split; [exact H1 |]. split; [exact H2 |].
  split; [apply last_segment_final | reflexivity].
Qed.

Example file_as_specified_on_branch :
  file_as_specified (finding_of_component "src:sonar/hot.py:BRANCH:somebranch")
    (Some "sonar/hot.py").
Proof.
  apply (file_as_specified_on_one_line
           (finding_of_component "src:sonar/hot.py:BRANCH:somebranch")).
  intros comp E. injection E as <-. reflexivity.
Qed.

(** ** The limits of [int] *)

(** A separator character before the digits is not stripped. *)
Example int_of_str_separator :
  PyInt.of_str (String (ascii_of_nat 28) "12") = None
  /\ PyInt.of_str (String (ascii_of_nat 32) "12") = Some 12
  /\ PyInt.of_str (String (ascii_of_nat 9) "12") = Some 12.
Proof. repeat split; reflexivity. Qed.

(** A string with more digits than the limit is rejected. *)
Lemma int_of_str_digit_limit (s : string) :
  (PyInt.max_str_digits < PyInt.digit_count s)%nat -> PyInt.of_str s = None.
Proof.
  intros H. unfold PyInt.of_str. apply Nat.ltb_lt in H. by rewrite H.
Qed.
